(** * The Prothom Alo polling crawler: a shallow embedding and its properties

    The development follows [scheduled_news_crawler.py].  Python strings are
    sequences of Unicode code points, the two kinds of file under [data/] are
    kept in an explicit store, the network, the HTML parser, the clock and the
    string hash are an environment record, and exceptions are threaded
    through a small state-and-exception monad so that the two [try]/[except]
    blocks of [scrape_prothom_alo] appear as they are written. *)

From stdpp Require Import gmap list strings sorting.
From Stdlib Require Import ZArith NArith Lia.
From Stdlib Require Ascii String.

Local Open Scope N_scope.

(** ** Python strings *)

Module PyStr.

(** A [str] is a list of code points. *)
Abbreviation pystr := (list N).

(** String literals of the source, read as code points. *)
Definition py (s : string) : pystr :=
  Ascii.N_of_ascii <$> String.list_ascii_of_string s.

Definition LF : N := 10.
Definition CR : N := 13.
Definition SP : N := 32.

(** [str.isspace] on one code point, the predicate used by [str.strip] and by
    the regular expression class [\s] on [str] patterns. *)
Definition isspace (c : N) : bool :=
  ((9 <=? c) && (c <=? 13)) || ((28 <=? c) && (c <=? 32))
  || (c =? 133) || (c =? 160) || (c =? 5760)
  || ((8192 <=? c) && (c <=? 8202))
  || (c =? 8232) || (c =? 8233) || (c =? 8239) || (c =? 8287)
  || (c =? 12288).

Fixpoint lstrip (s : pystr) : pystr :=
  match s with
  | [] => []
  | c :: s' => if isspace c then lstrip s' else s
  end.

Definition rstrip (s : pystr) : pystr := rev (lstrip (rev s)).

(** [s.strip()] *)
Definition strip (s : pystr) : pystr := lstrip (rstrip s).

(** [re.sub(r'\s+', ' ', text)]: every maximal run of whitespace becomes one
    space; [in_run] tells that the previous code point was whitespace. *)
Fixpoint sub_ws (in_run : bool) (text : pystr) : pystr :=
  match text with
  | [] => []
  | c :: text' =>
      if isspace c
      then (if in_run then sub_ws true text' else SP :: sub_ws true text')
      else c :: sub_ws false text'
  end.

(** [s.startswith(p)] *)
Fixpoint startswith (s p : pystr) {struct p} : bool :=
  match p, s with
  | [], _ => true
  | _ :: _, [] => false
  | c :: p', d :: s' => (c =? d) && startswith s' p'
  end.

(** [needle in hay] *)
Fixpoint str_in (needle hay : pystr) : bool :=
  startswith hay needle ||
  match hay with
  | [] => false
  | _ :: hay' => str_in needle hay'
  end.

End PyStr.
Import PyStr.

(** [clean_text], lines 10-15. *)
Definition clean_text (text : pystr) : pystr :=
  match text with
  | [] => py ""
  | _ => strip (sub_ws false text)
  end.

(** ** The files under [data/] and the trace of I/O calls *)

(** A CSV field as handed to [csv.writer]: [None] is Python's [None] (written
    as an empty field), [Some s] a [str]. *)
Abbreviation field := (option pystr).
Abbreviation row := (list field).

(** The calls that touch the outside world, in the order they are made. *)
Inductive event : Type :=
  | EGet (url : pystr)                        (* requests.get(url) *)
  | EWriteRow (filename : pystr) (r : row)    (* writer.writerow(r) *)
  | EAppendHistory (url : pystr).             (* save_article_url(url) *)

#[global] Instance event_eq_dec : EqDecision event.
Proof. solve_decision. Defined.

(** [history_file] is the text of [data/article_history.txt] ([None]: no such
    file); [csv_files] maps the name of a daily CSV file to the rows it
    holds on disk; [pending] are the rows handed to the file object opened
    at line 59 that are still in its buffer.  Reads and writes of these
    local files are taken to succeed; only the network and the parser
    raise. *)
Record State : Type := mkState {
  history_file : option pystr;
  csv_files : gmap pystr (list row);
  trace : list event;
  pending : list row
}.

(** ** Exceptions *)

Inductive exn : Type :=
  | RequestException       (* requests.get raised *)
  | HTTPError (status : Z) (* raise_for_status raised *)
  | ParserError.           (* BeautifulSoup raised *)

Inductive result (A : Type) : Type :=
  | Returned (a : A)
  | Raised (e : exn).
Arguments Returned {A} a.
Arguments Raised {A} e.

(** A computation reads and updates the store and returns or raises; the
    store survives a raise, as files do. *)
Definition M (A : Type) : Type := State -> result A * State.

Definition ret {A} (a : A) : M A := fun s => (Returned a, s).

Definition bind {A B} (m : M A) (f : A -> M B) : M B :=
  fun s =>
    match m s with
    | (Returned a, s') => f a s'
    | (Raised e, s') => (Raised e, s')
    end.

Definition raise {A} (e : exn) : M A := fun s => (Raised e, s).

(** [try: body except Exception as e: handler] *)
Definition try_except {A} (body : M A) (handler : exn -> M A) : M A :=
  fun s =>
    match body s with
    | (Returned a, s') => (Returned a, s')
    | (Raised e, s') => handler e s'
    end.

Declare Scope py_scope.
Delimit Scope py_scope with py.
Notation "x <- m ;; k" := (bind m (fun x => k))
  (at level 100, m at next level, right associativity) : py_scope.
Notation "m ;;; k" := (bind m (fun _ => k))
  (at level 100, right associativity) : py_scope.
Local Open Scope py_scope.

Definition log (e : event) : M unit :=
  fun s => (Returned tt,
            mkState (history_file s) (csv_files s) (trace s ++ [e])
                    (pending s)).

(** ** The identifier store, lines 17-35 *)

(** Reading in text mode with the default [newline=None]: a carriage return,
    alone or followed by a line feed, is handed to the program as one line
    feed. *)
Fixpoint universal_newlines (t : pystr) : pystr :=
  match t with
  | [] => []
  | c :: t' =>
      if c =? CR
      then match t' with
           | d :: _ => if d =? LF then universal_newlines t'
                       else LF :: universal_newlines t'
           | [] => [LF]
           end
      else c :: universal_newlines t'
  end.

(** [for line in f]: the lines of a text, each with its line feed; a last
    line without one is a line too, an empty text has no line. *)
Fixpoint file_lines (t : pystr) : list pystr :=
  match t with
  | [] => []
  | c :: t' =>
      if c =? LF then [c] :: file_lines t'
      else match file_lines t' with
           | [] => [[c]]
           | l :: ls => (c :: l) :: ls
           end
  end.

(** The body of the [with] block of lines 26-28 on the text of the file. *)
Definition read_history (t : pystr) : gset pystr :=
  list_to_set (strip <$> file_lines (universal_newlines t)).

(** [get_current_articles], lines 17-30.  [os.makedirs('data',
    exist_ok=True)] touches neither kind of file and is left out. *)
Definition get_current_articles : M (gset pystr) :=
  fun s =>
    match history_file s with
    | Some t => (Returned (read_history t), s)
    | None => (Returned ∅, s)
    end.

(** [save_article_url], lines 32-35: mode ['a'] creates the file when there is
    none and writes at its end; on POSIX the line feed is written as it is.
    The [with] block closes the file before the function returns, so the
    line is in the file at once. *)
Definition save_article_url (url : pystr) : M unit :=
  fun s =>
    (Returned tt,
     mkState (Some (default [] (history_file s) ++ url ++ [LF]))
             (csv_files s)
             (trace s ++ [EAppendHistory url])
             (pending s)).

(** ** The record sink *)

(** [os.path.exists(csv_filename)] *)
Definition path_exists (filename : pystr) : M bool :=
  fun s => (Returned (bool_decide (is_Some (csv_files s !! filename))), s).

(** [open(csv_filename, 'a', ...)], line 59: an absent file is created
    empty, an existing one is kept and written at its end; the new file
    object has nothing in its buffer. *)
Definition open_append (filename : pystr) : M unit :=
  fun s =>
    (Returned tt,
     mkState (history_file s)
             (<[filename := default [] (csv_files s !! filename)]> (csv_files s))
             (trace s)
             []).

(** [writer.writerow(r)] on the file object opened by [open_append].  The
    row goes to the buffer of the file object, which is written out to the
    file only when it fills up or the file is closed: [spill] tells how
    many of the buffered rows, the new one included, reach the file during
    this call (none, as long as the buffer has room).  The file is counted
    in whole rows: a row of which only a part has been written out is still
    [pending]. *)
Definition writerow (spill : list row -> nat) (filename : pystr) (r : row)
  : M unit :=
  fun s =>
    let buffered := pending s ++ [r] in
    (Returned tt,
     mkState (history_file s)
             (<[filename := default [] (csv_files s !! filename)
                            ++ take (spill buffered) buffered]>
                (csv_files s))
             (trace s ++ [EWriteRow filename r])
             (drop (spill buffered) buffered)).

(** Closing the file object writes out what is left in its buffer. *)
Definition close_file (filename : pystr) : M unit :=
  fun s =>
    (Returned tt,
     mkState (history_file s)
             (<[filename := default [] (csv_files s !! filename) ++ pending s]>
                (csv_files s))
             (trace s)
             []).

(** [with open(filename, 'a', ...) as file: body], lines 59-177: the file is
    closed when the block is left, by a [return] or by an exception. *)
Definition with_open_append {A} (filename : pystr) (body : M A) : M A :=
  fun s =>
    let '(r, s') := body (snd (open_append filename s)) in
    (r, snd (close_file filename s')).

Definition header : row :=
  [Some (py "title"); Some (py "full_content"); Some (py "image_url");
   Some (py "article_url"); Some (py "published_at"); Some (py "scraped_at")].

(** ** The environment of one cycle *)

(** What [requests.get] returns: the status code, and what
    [BeautifulSoup(response.text, 'html.parser')] makes of the body. *)
Record response (page : Type) : Type := mkResponse {
  status_code : Z;
  parsed : result page
}.
Arguments mkResponse {page} _ _.
Arguments status_code {page} _.
Arguments parsed {page} _.

(** The homepage as the selectors of lines 80-84 see it: the [href] attribute
    of every [a] element in document order, [None] where there is none. *)
Abbreviation home_page := (list (option pystr)).

(** An article page as the selectors of lines 115-152 see it. *)
Record article_page : Type := mkArticle {
  (* select_one('h1'): the [.text] of the first h1 *)
  h1_text : option pystr;
  (* select_one('time'): its [datetime] attribute *)
  time_datetime : option (option pystr);
  (* select_one('figure img'): its [src] and [data-src] attributes *)
  figure_img : option (option pystr * option pystr);
  (* select('.story-element-text'): [get_text(strip=True)] of each *)
  story_elements : list pystr;
  (* select('.storyContent p'): [get_text(strip=True)] of each *)
  fallback_elements : list pystr
}.

Record World : Type := mkWorld {
  (* datetime.now().strftime("%Y%m%d") at line 56 *)
  today : pystr;
  (* requests.get(home_url, ...) *)
  get_home : result (response home_page);
  (* requests.get(article_url, ...) *)
  get_article : pystr -> result (response article_page);
  (* datetime.now().strftime("%Y-%m-%d %H:%M:%S") at line 159 *)
  scraped_at : pystr -> pystr;
  (* hash(str), which fixes the iteration order of a set *)
  str_hash : pystr -> N;
  (* how many of the rows in the buffer of the CSV file object are written
     out during a [writerow], which depends on their sizes in bytes *)
  spilled : list row -> nat
}.

Definition requests_get {page} (url : pystr) (r : result (response page))
  : M (response page) :=
  log (EGet url) ;;;
  match r with
  | Returned resp => ret resp
  | Raised e => raise e
  end.

(** [response.raise_for_status()] *)
Definition raise_for_status {page} (resp : response page) : M unit :=
  if ((400 <=? status_code resp) && (status_code resp <? 600))%Z
  then raise (HTTPError (status_code resp))
  else ret tt.

(** [BeautifulSoup(response.text, 'html.parser')] *)
Definition BeautifulSoup {page} (resp : response page) : M page :=
  match parsed resp with
  | Returned p => ret p
  | Raised e => raise e
  end.

(** ** Link discovery, lines 75-89 *)

Definition base_url : pystr := py "https://www.prothomalo.com".

Definition categories : list pystr :=
  py <$> ["bangladesh"; "world"; "economy"; "sports"; "entertainment";
          "opinion"; "lifestyle"; "technology"]%string.

(** [soup.select('a[href*="/{category}/"]')], each element read with
    [element.get('href')]: the [a] elements that have an [href] containing
    the text, in document order. *)
Definition select_category (soup : home_page) (category : pystr) : list pystr :=
  List.filter (fun href => str_in (py "/" ++ category ++ py "/") href)
              (omap id soup).

(** The test of line 85. *)
Definition keep_href (href : pystr) : bool :=
  match href with [] => false | _ :: _ => true end
  && negb (str_in (py "/video/") href)
  && negb (str_in (py "/gallery/") href).

(** Lines 87-88. *)
Definition full_url (href : pystr) : pystr :=
  if startswith href (py "http") then href else base_url ++ href.

Definition article_links (soup : home_page) : list pystr :=
  flat_map
    (fun category => full_url <$> List.filter keep_href (select_category soup category))
    categories.

(** ** The delta filter, lines 91-92 *)

(** Iterating over [set(l)], lines 91-92: every distinct element once, in an order fixed
    by the hashes of the elements (elements of equal hash in the order they
    were first inserted). *)
Definition hash_le (hash : pystr -> N) (x y : pystr) : Prop :=
  hash x <= hash y.

#[global] Instance hash_le_dec hash x y : Decision (hash_le hash x y).
Proof. unfold hash_le. apply _. Defined.

Definition set_iter (hash : pystr -> N) (l : list pystr) : list pystr :=
  merge_sort (hash_le hash) (remove_dups l).

Definition new_articles_of (hash : pystr -> N) (links : list pystr)
    (existing_urls : gset pystr) : list pystr :=
  List.filter (fun url => bool_decide (url ∉ existing_urls))
              (set_iter hash links).

(** ** Field extraction, lines 114-156 *)

Definition no_title : pystr := py "No title found".

Definition sentinel : pystr :=
  py "Content extraction failed - no story-element-text found".

Definition extract_title (soup : article_page) : pystr :=
  match h1_text soup with
  | Some text => clean_text text
  | None => no_title
  end.

Definition extract_published_at (soup : article_page) : field :=
  match time_datetime soup with
  | Some datetime => datetime
  | None => Some (py "")
  end.

Definition extract_image_url (soup : article_page) : field :=
  match figure_img soup with
  | None => Some (py "")
  | Some (src, data_src) =>
      match src with
      | Some (c :: u) => Some (c :: u)
      | _ => Some (default (py "") data_src)
      end
  end.

(** The loop of lines 137-141. *)
Definition join_story (story : list pystr) : pystr :=
  fold_left
    (fun article_content element_text =>
       match element_text with
       | [] => article_content
       | _ :: _ => article_content ++ element_text ++ [LF; LF]
       end)
    story [].

(** The loop of lines 151-152. *)
Definition join_fallback (paragraphs : list pystr) : pystr :=
  fold_left (fun article_content p => article_content ++ p ++ [LF; LF])
            paragraphs [].

Definition extract_content (soup : article_page) : pystr :=
  match strip (join_story (story_elements soup)) with
  | [] =>
      match fallback_elements soup with
      | [] => sentinel
      | _ :: _ => strip (join_fallback (fallback_elements soup))
      end
  | article_content => article_content
  end.

Definition article_row (w : World) (article_url : pystr) (soup : article_page)
  : row :=
  [Some (extract_title soup); Some (extract_content soup);
   extract_image_url soup; Some article_url; extract_published_at soup;
   Some (scraped_at w article_url)].

(** ** The cycle driver, lines 37-177 *)

Definition csv_filename_of (date : pystr) : pystr :=
  py "data/prothom_alo_" ++ date ++ py ".csv".

(** The body of the inner [try], lines 104-165.  The random sleep and the
    prints do not touch the store. *)
Definition process_article (w : World) (csv_filename article_url : pystr)
  : M unit :=
  article_response <- requests_get article_url (get_article w article_url) ;;
  raise_for_status article_response ;;;
  article_soup <- BeautifulSoup article_response ;;
  writerow (spilled w) csv_filename
           (article_row w article_url article_soup) ;;;
  save_article_url article_url.

(** The [for] loop of lines 102-171 with its counter. *)
Fixpoint process_each (w : World) (csv_filename : pystr)
    (new_articles : list pystr) (articles_scraped : Z) : M Z :=
  match new_articles with
  | [] => ret articles_scraped
  | article_url :: rest =>
      n <- try_except
             (process_article w csv_filename article_url ;;;
              ret (articles_scraped + 1)%Z)
             (fun _ => ret articles_scraped) ;;
      process_each w csv_filename rest n
  end.

(** The outer [try] body, lines 67-173. *)
Definition discover_and_process (w : World) (csv_filename : pystr)
    (existing_urls : gset pystr) : M Z :=
  response <- requests_get base_url (get_home w) ;;
  raise_for_status response ;;;
  soup <- BeautifulSoup response ;;
  match new_articles_of (str_hash w) (article_links soup) existing_urls with
  | [] => ret 0%Z
  | new_articles => process_each w csv_filename new_articles 0%Z
  end.

Definition scrape_prothom_alo (w : World) : M Z :=
  existing_urls <- get_current_articles ;;
  let csv_filename := csv_filename_of (today w) in
  file_exists <- path_exists csv_filename ;;
  with_open_append csv_filename
    ((if file_exists then ret tt
      else writerow (spilled w) csv_filename header) ;;;
     try_except (discover_and_process w csv_filename existing_urls)
                (fun _ => ret 0%Z)).

(** ** The outer loop, lines 187-195 *)

(** [ws] lists the environments of the cycles that run before the stop
    signal arrives; the result is [(total_articles, cycles)]. *)
Fixpoint main_loop (ws : list World) (total_articles cycles : Z)
  : M (Z * Z) :=
  match ws with
  | [] => ret (total_articles, cycles)
  | w :: ws' =>
      new_articles <- scrape_prothom_alo w ;;
      main_loop ws' (total_articles + new_articles)%Z (cycles + 1)%Z
  end.

Definition main (ws : list World) : M (Z * Z) := main_loop ws 0%Z 0%Z.

(** * Vocabulary for the statements *)

(** ** One fetch, one item *)

(** Lines 108-112 (and 68-72) taken together: what [requests.get],
    [raise_for_status] and [BeautifulSoup] hand to the code that follows. *)
Definition fetched {page} (r : result (response page)) : result page :=
  match r with
  | Raised e => Raised e
  | Returned resp =>
      if ((400 <=? status_code resp) && (status_code resp <? 600))%Z
      then Raised (HTTPError (status_code resp))
      else parsed resp
  end.

(** The row that processing [url] writes, when nothing raises. *)
Definition item_row (w : World) (url : pystr) : option row :=
  match fetched (get_article w url) with
  | Returned soup => Some (article_row w url soup)
  | Raised _ => None
  end.

(** The events of one pass through the loop body. *)
Definition item_events (w : World) (f url : pystr) : list event :=
  EGet url ::
  match item_row w url with
  | Some r => [EWriteRow f r; EAppendHistory url]
  | None => []
  end.

(** The items of [urls] that are processed without a raise. *)
Definition succeeded (w : World) (urls : list pystr) : list pystr :=
  List.filter (fun url => bool_decide (is_Some (item_row w url))) urls.

(** The history file after [save_article_url] on each of [urls]. *)
Definition append_history (h : option pystr) (urls : list pystr) : option pystr :=
  fold_left (fun h url => Some (default [] h ++ url ++ [LF])) urls h.

(** The CSV files once the file object for [f] is closed: what is in its
    buffer has joined what the file holds. *)
Definition closed_csv (f : pystr) (s : State) : gmap pystr (list row) :=
  <[f := default [] (csv_files s !! f) ++ pending s]> (csv_files s).

(** The store that [close_file f] leaves. *)
Definition flushed (f : pystr) (s : State) : State :=
  mkState (history_file s) (closed_csv f s) (trace s) [].

(** The CSV files after [writerow] of each of [rows] to file [f], the file
    closed. *)
Definition write_rows (f : pystr) (csv : gmap pystr (list row)) (rows : list row)
  : gmap pystr (list row) :=
  fold_left (fun csv r => <[f := default [] (csv !! f) ++ [r]]> csv) rows csv.

(** ** One cycle *)

(** The set that [get_current_articles] returns in store [s]. *)
Definition seen_at (s : State) : gset pystr :=
  match history_file s with
  | Some t => read_history t
  | None => ∅
  end.

(** The links found on the homepage, none when it cannot be had. *)
Definition discovered (w : World) : list pystr :=
  match fetched (get_home w) with
  | Returned soup => article_links soup
  | Raised _ => []
  end.

(** The filtered list of line 92. *)
Definition new_articles_at (w : World) (s : State) : list pystr :=
  new_articles_of (str_hash w) (discovered w) (seen_at s).

(** The CSV files after lines 57-64. *)
Definition open_csv (f : pystr) (csv : gmap pystr (list row))
  : gmap pystr (list row) :=
  match csv !! f with
  | Some _ => csv
  | None => <[f := [header]]> csv
  end.

Definition header_events (f : pystr) (csv : gmap pystr (list row))
  : list event :=
  match csv !! f with
  | Some _ => []
  | None => [EWriteRow f header]
  end.

(** All the events of one cycle. *)
Definition cycle_events (w : World) (s : State) : list event :=
  let f := csv_filename_of (today w) in
  header_events f (csv_files s) ++
  EGet base_url :: flat_map (item_events w f) (new_articles_at w s).

(** ** Reading a trace *)

(** The events that running [m] from [s] adds to the trace. *)
Definition events_of {A} (m : M A) (s : State) : list event :=
  drop (length (trace s)) (trace (snd (m s))).

Definition gets (evs : list event) : list pystr :=
  omap (fun e => match e with EGet url => Some url | _ => None end) evs.

Definition appended (evs : list event) : list pystr :=
  omap (fun e => match e with EAppendHistory url => Some url | _ => None end) evs.

Definition written (evs : list event) : list (pystr * row) :=
  omap (fun e => match e with EWriteRow f r => Some (f, r) | _ => None end) evs.

(** The [article_url] column of a row. *)
Definition article_url_of (r : row) : option pystr :=
  match r !! 3%nat with
  | Some (Some url) => Some url
  | _ => None
  end.

(** Every append to the history file comes right after the write, to file
    [f], of the row of the same article. *)
Definition row_then_append (w : World) (f : pystr) (evs : list event) : Prop :=
  ∀ i url, evs !! i = Some (EAppendHistory url) →
    ∃ j r, i = S j ∧ item_row w url = Some r ∧
           evs !! j = Some (EWriteRow f r).

(** The header row, when the cycle writes it. *)
Definition header_rows (f : pystr) (csv : gmap pystr (list row)) : list row :=
  match csv !! f with
  | Some _ => []
  | None => [header]
  end.

(** [save_article_url] called on each of [urls] in turn. *)
Fixpoint record_all (urls : list pystr) : M unit :=
  match urls with
  | [] => ret tt
  | url :: urls' => save_article_url url ;;; record_all urls'
  end.

(** What the cycles of [main_loop] return, in order. *)
Fixpoint cycle_returns (ws : list World) (s : State) : list Z :=
  match ws with
  | [] => []
  | w :: ws' =>
      match scrape_prothom_alo w s with
      | (Returned n, s') => n :: cycle_returns ws' s'
      | (Raised _, _) => []
      end
  end.

Definition sum_Z (l : list Z) : Z := fold_right Z.add 0%Z l.

(** ** The history file as text *)

(** The text that recording [urls] in turn writes. *)
Definition history_text (urls : list pystr) : pystr :=
  concat ((fun url => url ++ [LF]) <$> urls).

(** An identifier that a line of the history file gives back as it is. *)
Definition line_safe (url : pystr) : Prop :=
  strip url = url ∧ (LF ∉ url) ∧ (CR ∉ url).

#[global] Instance line_safe_dec url : Decision (line_safe url).
Proof. unfold line_safe. apply _. Defined.

(** ** Concrete stores and environments *)

Definition s_empty : State := mkState None ∅ [] [].

Definition page_plain : article_page :=
  mkArticle (Some (py "Budget  passed"))
            (Some (Some (py "2024-01-01T10:00:00+06:00")))
            (Some (Some (py "https://images.prothomalo.com/a.jpg"), None))
            [py "First paragraph."; py "Second paragraph."]
            [].

(** A page on which no selector matches anything. *)
Definition page_bare : article_page := mkArticle None None None [] [].

Definition ok_response {page} (p : page) : result (response page) :=
  Returned (mkResponse 200 (Returned p)).

(** The homepage cannot be fetched. *)
Definition w_down : World :=
  mkWorld (py "20240101") (Raised RequestException)
          (fun _ => ok_response page_plain)
          (fun _ => py "2024-01-01 10:00:00")
          (fun url => N.of_nat (length url))
          (fun _ => 0%nat).

(** The daily file of [w_down] is there already. *)
Definition s_day : State :=
  mkState None {[csv_filename_of (py "20240101") := [header]]} [] [].

(** Two links; the first article answers 404. *)
Definition url_a : pystr := py "https://www.prothomalo.com/sports/a".
Definition url_b : pystr := py "https://www.prothomalo.com/world/b".

Definition w_mixed : World :=
  mkWorld (py "20240101")
          (ok_response [Some (py "/sports/a"); Some (py "/world/b");
                        Some (py "/sports/a")])
          (fun url => if decide (url = url_a)
                      then Returned (mkResponse 404 (Returned page_bare))
                      else ok_response page_bare)
          (fun _ => py "2024-01-01 10:00:00")
          (fun url => N.of_nat (length url))
          (fun _ => 0%nat).

(** One link whose [href] ends in a space; every fetch succeeds. *)
Definition url_spaced : pystr := py "https://www.prothomalo.com/sports/a ".

Definition w_spaced : World :=
  mkWorld (py "20240101")
          (ok_response [Some (py "/sports/a ")])
          (fun _ => ok_response page_plain)
          (fun _ => py "2024-01-01 10:00:00")
          (fun url => N.of_nat (length url))
          (fun _ => 0%nat).

(** One link, every fetch succeeds, nothing leaves the buffer of the CSV
    file object before it is closed. *)
Definition w_one : World :=
  mkWorld (py "20240101")
          (ok_response [Some (py "/sports/a")])
          (fun _ => ok_response page_plain)
          (fun _ => py "2024-01-01 10:00:00")
          (fun url => N.of_nat (length url))
          (fun _ => 0%nat).

(** A page whose primary selector matches nothing and whose fallback
    selector matches one empty paragraph. *)
Definition page_blank : article_page := mkArticle None None None [] [py ""].

Definition w_blank : World :=
  mkWorld (py "20240101")
          (ok_response [Some (py "/sports/a")])
          (fun _ => ok_response page_blank)
          (fun _ => py "2024-01-01 10:00:00")
          (fun url => N.of_nat (length url))
          (fun _ => 0%nat).

(** Decidable facts about concrete inputs, by evaluation. *)
Ltac by_compute := apply (bool_decide_unpack _); vm_compute; exact I.

(** ** Shapes of strings *)

(** No whitespace at either end. *)
Definition trimmed (s : pystr) : Prop :=
  (∀ c, head s = Some c → isspace c = false) ∧
  (∀ c, last s = Some c → isspace c = false).

(** Nothing but whitespace. *)
Definition blank (s : pystr) : Prop := Forall (fun c => isspace c = true) s.

(** The code points of [s] that are not whitespace, in order. *)
Definition nonspace (s : pystr) : pystr :=
  List.filter (fun c => negb (isspace c)) s.

(** Every whitespace code point of [s] is a single space that follows no
    whitespace; [after_space] tells that whitespace stands just before
    [s]. *)
Fixpoint spaced (after_space : bool) (s : pystr) : Prop :=
  match s with
  | [] => True
  | c :: s' =>
      if isspace c
      then c = SP ∧ after_space = false ∧ spaced true s'
      else spaced false s'
  end.

(** ** The history file over many cycles *)



(** Two links, every fetch succeeds. *)
Definition w_ok : World :=
  mkWorld (py "20240101")
          (ok_response [Some (py "/sports/a"); Some (py "/world/b")])
          (fun _ => ok_response page_plain)
          (fun _ => py "2024-01-01 10:00:00")
          (fun url => N.of_nat (length url))
          (fun buffered => length buffered).

(** A daily file, when there is one, starts with the header row and holds
    it nowhere else. *)
Definition header_once (file : option (list row)) : Prop :=
  match file with
  | None => True
  | Some rows => ∃ rest, rows = header :: rest ∧ header ∉ rest
  end.

(** * Lemmas *)

(** ** Strings *)

Lemma startswith_prefix (s p : pystr) : startswith s p = true ↔ p `prefix_of` s.
Proof.
  revert s. induction p as [|c p IH]; intros s.
  - split; [intros _; apply prefix_nil | done].
  - destruct s as [|d s]; cbn [startswith].
    + split; [done | intros H; by apply prefix_nil_not in H].
    + rewrite andb_true_iff, N.eqb_eq, IH. split.
      * intros [-> H]. by apply prefix_cons.
      * intros H. split; [by apply prefix_cons_inv_1 in H
                         | by apply prefix_cons_inv_2 in H].
Qed.

(** [str_in] is the substring test. *)
Lemma str_in_spec (needle hay : pystr) :
  str_in needle hay = true ↔ ∃ a b, hay = a ++ needle ++ b.
Proof.
  induction hay as [|c hay IH].
  - cbn [str_in]. rewrite orb_false_r, startswith_prefix. split.
    + intros [k Hk]. destruct needle; [|done]. by exists [], [].
    + intros (a & b & H). symmetry in H.
      apply app_eq_nil in H as [_ H]. apply app_eq_nil in H as [-> _].
      apply prefix_nil.
  - cbn [str_in]. rewrite orb_true_iff, startswith_prefix, IH. split.
    + intros [[k Hk] | (a & b & H)].
      * exists [], k. by rewrite Hk.
      * exists (c :: a), b. by rewrite H.
    + intros (a & b & H). destruct a as [|c' a].
      * left. exists b. by rewrite H.
      * right. exists a, b. by inversion H.
Qed.

Lemma str_in_nonempty (needle hay : pystr) :
  needle ≠ [] → str_in needle hay = true → hay ≠ [].
Proof.
  intros Hn H%str_in_spec. destruct H as (a & b & ->).
  destruct a; [destruct needle|]; done.
Qed.

Lemma rstrip_snoc_space s c : isspace c = true → rstrip (s ++ [c]) = rstrip s.
Proof.
  intros H. unfold rstrip. rewrite rev_app_distr. cbn. by rewrite H.
Qed.

Lemma strip_snoc_space s c : isspace c = true → strip (s ++ [c]) = strip s.
Proof. intros H. unfold strip. by rewrite rstrip_snoc_space. Qed.

(** ** Lines of a text *)

Lemma universal_newlines_id (t : pystr) : CR ∉ t → universal_newlines t = t.
Proof.
  induction t as [|c t IH]; [done|]. intros H.
  apply not_elem_of_cons in H as [Hc Ht]. cbn.
  destruct (N.eqb_spec c CR) as [->|_]; [done|]. by rewrite IH.
Qed.

Lemma file_lines_line (u t : pystr) :
  LF ∉ u → file_lines (u ++ LF :: t) = (u ++ [LF]) :: file_lines t.
Proof.
  induction u as [|c u IH]; intros H; [done|].
  apply not_elem_of_cons in H as [Hc Hu]. cbn [app file_lines].
  destruct (N.eqb_spec c LF) as [->|_]; [done|]. by rewrite IH.
Qed.

Lemma history_text_app urls1 urls2 :
  history_text (urls1 ++ urls2) = history_text urls1 ++ history_text urls2.
Proof. unfold history_text. by rewrite fmap_app, concat_app. Qed.

Lemma file_lines_history_text (urls : list pystr) :
  Forall (λ url, LF ∉ url) urls →
  file_lines (history_text urls) = (fun url => url ++ [LF]) <$> urls.
Proof.
  induction 1 as [|url urls Hurl _ IH]; [done|].
  unfold history_text in *. cbn [fmap list_fmap concat].
  rewrite <- app_assoc. cbn [app]. by rewrite file_lines_line, IH.
Qed.

Lemma read_history_text (urls : list pystr) :
  Forall line_safe urls → read_history (history_text urls) = list_to_set urls.
Proof.
  intros Hsafe. unfold read_history.
  rewrite universal_newlines_id.
  - rewrite file_lines_history_text
      by (eapply Forall_impl; [exact Hsafe | by intros ? (_ & ? & _)]).
    f_equal. rewrite <- list_fmap_compose.
    rewrite <- (list_fmap_id urls) at 2. apply Forall_fmap_ext_1.
    eapply Forall_impl; [exact Hsafe|]. intros url (Hs & _ & _).
    change (strip (url ++ [LF]) = url). by rewrite strip_snoc_space.
  - clear -Hsafe. induction Hsafe as [|url urls (_ & _ & Hcr) _ IH]; [by inversion 1|].
    unfold history_text in *. cbn [fmap list_fmap concat].
    rewrite !not_elem_of_app. split_and!; [done| |done].
    by intros [=]%list_elem_of_singleton.
Qed.

(** ** The identifier store *)

Lemma get_current_articles_seen_at s :
  get_current_articles s = (Returned (seen_at s), s).
Proof. unfold get_current_articles, seen_at. by destruct (history_file s). Qed.

Lemma append_history_text h urls :
  append_history h urls =
  match urls with
  | [] => h
  | _ :: _ => Some (default [] h ++ history_text urls)
  end.
Proof.
  revert h. induction urls as [|url urls IH]; intros h; [done|].
  cbn [append_history fold_left]. fold (append_history (Some (default [] h ++ url ++ [LF])) urls).
  rewrite IH. unfold history_text. cbn [fmap list_fmap concat default].
  destruct urls as [|url' urls]; [by rewrite app_nil_r|].
  unfold id. by rewrite <- !app_assoc.
Qed.

Lemma record_all_spec urls s :
  record_all urls s =
  (Returned tt,
   mkState (append_history (history_file s) urls) (csv_files s)
           (trace s ++ (EAppendHistory <$> urls)) (pending s)).
Proof.
  revert s. induction urls as [|url urls IH]; intros s.
  - cbn. unfold ret. destruct s; cbn. by rewrite app_nil_r.
  - cbn [record_all]. unfold bind, save_article_url. rewrite IH.
    cbn. by rewrite <- app_assoc.
Qed.

Lemma seen_at_history_text old s :
  Forall line_safe old →
  default [] (history_file s) = history_text old →
  seen_at s = list_to_set old.
Proof.
  intros Hsafe Hold. unfold seen_at. destruct (history_file s) as [t|].
  - cbn in Hold. subst t. by apply read_history_text.
  - destruct old as [|url old]; [done|]. cbn in Hold.
    unfold history_text in Hold. cbn in Hold.
    by destruct url.
Qed.

Lemma seen_at_append_history old urls s s' :
  Forall line_safe (old ++ urls) →
  default [] (history_file s) = history_text old →
  history_file s' = append_history (history_file s) urls →
  seen_at s' = list_to_set (old ++ urls).
Proof.
  intros Hsafe Hold Hs'. apply seen_at_history_text; [done|].
  rewrite Hs', append_history_text.
  destruct urls as [|url urls]; [by rewrite app_nil_r|].
  rewrite history_text_app, <- Hold. reflexivity.
Qed.

(** ** Link discovery *)

Lemma elem_of_select_category soup category href :
  href ∈ select_category soup category ↔
  Some href ∈ soup ∧ str_in (py "/" ++ category ++ py "/") href = true.
Proof.
  unfold select_category.
  rewrite list_elem_of_In, filter_In, <- list_elem_of_In, list_elem_of_omap.
  split.
  - intros [(o & Ho & Hid) Hin]. cbn in Hid. by subst.
  - intros [Ho Hin]. split; [|done]. by exists (Some href).
Qed.

Lemma keep_href_spec href :
  keep_href href = true ↔
  href ≠ [] ∧ str_in (py "/video/") href = false
            ∧ str_in (py "/gallery/") href = false.
Proof.
  unfold keep_href. rewrite !andb_true_iff, !negb_true_iff.
  destruct href; intuition congruence.
Qed.

Lemma elem_of_article_links soup url :
  url ∈ article_links soup ↔
  ∃ category href,
    category ∈ categories ∧ href ∈ select_category soup category ∧
    keep_href href = true ∧ url = full_url href.
Proof.
  unfold article_links. rewrite list_elem_of_In, in_flat_map. split.
  - intros (category & Hc & Hin).
    apply list_elem_of_In, list_elem_of_fmap in Hin as (href & -> & Hin).
    apply list_elem_of_In, filter_In in Hin as [Hin Hk].
    exists category, href. by rewrite !list_elem_of_In.
  - intros (category & href & Hc & Hin & Hk & ->).
    exists category. split; [by apply list_elem_of_In|].
    apply list_elem_of_In, list_elem_of_fmap. exists href. split; [done|].
    apply list_elem_of_In, filter_In. by rewrite <- list_elem_of_In.
Qed.

Lemma full_url_startswith_http href :
  startswith (full_url href) (py "http") = true.
Proof.
  unfold full_url. destruct (startswith href (py "http")) eqn:H; [done|].
  reflexivity.
Qed.

Lemma article_links_startswith_http soup url :
  url ∈ article_links soup → startswith url (py "http") = true.
Proof.
  intros (category & href & _ & _ & _ & ->)%elem_of_article_links.
  apply full_url_startswith_http.
Qed.

(** ** The delta filter *)

Lemma set_iter_Permutation hash l : set_iter hash l ≡ₚ remove_dups l.
Proof. apply merge_sort_Permutation. Qed.

Lemma elem_of_set_iter hash l url : url ∈ set_iter hash l ↔ url ∈ l.
Proof. by rewrite set_iter_Permutation, elem_of_remove_dups. Qed.

Lemma NoDup_set_iter hash l : NoDup (set_iter hash l).
Proof. rewrite set_iter_Permutation. apply NoDup_remove_dups. Qed.

Lemma elem_of_new_articles_of hash links seen url :
  url ∈ new_articles_of hash links seen ↔ url ∈ links ∧ url ∉ seen.
Proof.
  unfold new_articles_of.
  rewrite list_elem_of_In, filter_In, <- list_elem_of_In, elem_of_set_iter.
  by rewrite bool_decide_eq_true.
Qed.

Lemma NoDup_new_articles_of hash links seen :
  NoDup (new_articles_of hash links seen).
Proof.
  unfold new_articles_of. apply NoDup_ListNoDup, List.NoDup_filter.
  apply NoDup_ListNoDup, NoDup_set_iter.
Qed.

(** ** The loop over the new articles *)

Section Items.

Context (w : World).

Lemma item_row_Some url r :
  item_row w url = Some r ↔
  ∃ soup, fetched (get_article w url) = Returned soup ∧
          r = article_row w url soup.
Proof.
  unfold item_row. destruct (fetched _) as [soup|e].
  - split; [intros [= <-]; eauto | by intros (? & [= <-] & ->)].
  - split; [done | by intros (? & ? & _)].
Qed.

Lemma item_row_None url :
  item_row w url = None ↔ ∃ e, fetched (get_article w url) = Raised e.
Proof.
  unfold item_row. destruct (fetched _) as [soup|e].
  - split; [done | by intros [? ?]].
  - split; [eauto | done].
Qed.

Lemma article_url_of_article_row url soup :
  article_url_of (article_row w url soup) = Some url.
Proof. reflexivity. Qed.

Lemma article_url_of_item_row url r :
  item_row w url = Some r → article_url_of r = Some url.
Proof.
  intros (soup & _ & ->)%item_row_Some. apply article_url_of_article_row.
Qed.

Lemma closed_csv_writerow spill f r s :
  closed_csv f (snd (writerow spill f r s)) =
  <[f := default [] (closed_csv f s !! f) ++ [r]]> (closed_csv f s).
Proof.
  unfold closed_csv, writerow. cbn [snd csv_files pending].
  rewrite !lookup_insert_eq, !insert_insert_eq. cbn [default]. unfold id.
  f_equal. by rewrite <- !app_assoc, take_drop.
Qed.

Lemma process_article_spec f url s :
  fst (process_article w f url s) =
    match fetched (get_article w url) with
    | Raised e => Raised e
    | Returned _ => Returned tt
    end ∧
  flushed f (snd (process_article w f url s)) =
    match item_row w url with
    | Some r =>
        mkState (Some (default [] (history_file s) ++ url ++ [LF]))
                (<[f := default [] (closed_csv f s !! f) ++ [r]]>
                   (closed_csv f s))
                (trace s ++ item_events w f url) []
    | None =>
        mkState (history_file s) (closed_csv f s)
                (trace s ++ item_events w f url) []
    end.
Proof.
  unfold process_article, item_events, item_row, fetched, requests_get,
    raise_for_status, BeautifulSoup, bind, log, save_article_url, ret, raise.
  unfold writerow.
  destruct (get_article w url) as [resp|e]; cbn; [|done].
  destruct (_ && _); cbn; [done|].
  destruct (parsed resp) as [soup|e]; cbn; [|done].
  split; [done|]. unfold flushed, closed_csv.
  cbn [history_file csv_files trace pending].
  rewrite !lookup_insert_eq, !insert_insert_eq. cbn [default]. unfold id.
  by rewrite <- !app_assoc, take_drop.
Qed.

Lemma succeeded_cons url urls :
  succeeded w (url :: urls) =
  match item_row w url with
  | Some _ => url :: succeeded w urls
  | None => succeeded w urls
  end.
Proof.
  unfold succeeded. cbn [List.filter].
  destruct (item_row w url); [by rewrite bool_decide_true by eauto|].
  by rewrite bool_decide_false by (intros [? ?]; done).
Qed.

Lemma elem_of_succeeded urls url :
  url ∈ succeeded w urls ↔ url ∈ urls ∧ is_Some (item_row w url).
Proof.
  unfold succeeded.
  by rewrite list_elem_of_In, filter_In, <- list_elem_of_In, bool_decide_eq_true.
Qed.

Lemma NoDup_succeeded urls : NoDup urls → NoDup (succeeded w urls).
Proof.
  intros H. apply NoDup_ListNoDup, List.NoDup_filter. by apply NoDup_ListNoDup.
Qed.

Lemma process_each_spec f urls n s :
  fst (process_each w f urls n s) =
    Returned (n + Z.of_nat (length (succeeded w urls)))%Z ∧
  flushed f (snd (process_each w f urls n s)) =
    mkState (append_history (history_file s) (succeeded w urls))
            (write_rows f (closed_csv f s) (omap (item_row w) urls))
            (trace s ++ flat_map (item_events w f) urls) [].
Proof.
  revert n s. induction urls as [|url urls IH]; intros n s.
  - cbn. unfold flushed. by rewrite Z.add_0_r, app_nil_r.
  - cbn [process_each]. unfold bind, try_except.
    destruct (process_article_spec f url s) as [Hfst Hsnd].
    destruct (process_article w f url s) as [res s1]. cbn [fst snd] in *.
    pose proof (f_equal history_file Hsnd) as Hh.
    pose proof (f_equal csv_files Hsnd) as Hc.
    pose proof (f_equal trace Hsnd) as Ht.
    cbn [flushed history_file csv_files trace] in Hh, Hc, Ht. clear Hsnd.
    rewrite succeeded_cons. cbn [omap list_omap flat_map].
    destruct (item_row w url) as [r|] eqn:Hr.
    + apply item_row_Some in Hr as (soup & Hsoup & _).
      rewrite Hsoup in Hfst. subst res. unfold ret.
      destruct (IH (n + 1)%Z s1) as [-> ->].
      cbn [history_file csv_files trace] in Hh, Hc, Ht.
      rewrite Hh, Hc, Ht. cbn [length].
      unfold append_history, write_rows. cbn [fold_left].
      rewrite <- app_assoc. split; [f_equal; lia|done].
    + apply item_row_None in Hr as (e & He).
      rewrite He in Hfst. subst res. unfold ret.
      destruct (IH n s1) as [-> ->].
      cbn [history_file csv_files trace] in Hh, Hc, Ht.
      rewrite Hh, Hc, Ht. cbn [length].
      by rewrite <- app_assoc.
Qed.

End Items.

(** ** The record sink *)

Lemma write_rows_lookup f csv rows :
  write_rows f csv rows !! f =
  match rows with
  | [] => csv !! f
  | _ :: _ => Some (default [] (csv !! f) ++ rows)
  end.
Proof.
  revert csv. induction rows as [|r rows IH]; intros csv; [done|].
  cbn [write_rows fold_left].
  fold (write_rows f (<[f:=default [] (csv !! f) ++ [r]]> csv) rows).
  rewrite IH, lookup_insert_eq. cbn [default].
  destruct rows; [done|]. unfold id. by rewrite <- app_assoc.
Qed.

Lemma write_rows_lookup_ne f g csv rows :
  f ≠ g → write_rows f csv rows !! g = csv !! g.
Proof.
  intros Hne. revert csv. induction rows as [|r rows IH]; intros csv; [done|].
  cbn [write_rows fold_left].
  fold (write_rows f (<[f:=default [] (csv !! f) ++ [r]]> csv) rows).
  by rewrite IH, lookup_insert_ne.
Qed.

Lemma open_csv_lookup f csv :
  open_csv f csv !! f =
  Some (match csv !! f with Some rows => rows | None => [header] end).
Proof.
  unfold open_csv. destruct (csv !! f) eqn:H; [done|]. apply lookup_insert_eq.
Qed.

Lemma open_csv_lookup_ne f g csv : f ≠ g → open_csv f csv !! g = csv !! g.
Proof.
  intros Hne. unfold open_csv. destruct (csv !! f); [done|].
  by apply lookup_insert_ne.
Qed.

(** ** The cycle and the outer loop *)

Lemma discover_and_process_spec w f seen s :
  let new := new_articles_of (str_hash w) (discovered w) seen in
  let run := try_except (discover_and_process w f seen) (fun _ => ret 0%Z) s in
  fst run = Returned (Z.of_nat (length (succeeded w new))) ∧
  flushed f (snd run) =
    mkState (append_history (history_file s) (succeeded w new))
            (write_rows f (closed_csv f s) (omap (item_row w) new))
            (trace s ++ EGet base_url :: flat_map (item_events w f) new) [].
Proof.
  cbv zeta.
  unfold try_except, discover_and_process, discovered, fetched, requests_get,
    raise_for_status, BeautifulSoup, bind, log, ret, raise.
  destruct (get_home w) as [resp|e]; cbn -[new_articles_of process_each];
    [|done].
  destruct (_ && _); cbn -[new_articles_of process_each]; [done|].
  destruct (parsed resp) as [soup|e]; cbn -[new_articles_of process_each];
    [|done].
  destruct (new_articles_of _ _ _) as [|u new] eqn:Hnew; [done|].
  set (s0 := mkState _ _ _ _).
  destruct (process_each_spec w f (u :: new) 0%Z s0) as [Hfst Hsnd].
  destruct (process_each w f (u :: new) 0%Z s0) as [[n|e] s1];
    cbn [fst snd] in *; [|done].
  split; [done|]. rewrite Hsnd. subst s0. unfold closed_csv.
  cbn [history_file csv_files trace pending]. by rewrite <- app_assoc.
Qed.

Lemma closed_csv_open_append f s :
  closed_csv f (snd (open_append f s)) =
  <[f := default [] (csv_files s !! f)]> (csv_files s).
Proof.
  unfold closed_csv, open_append. cbn [snd csv_files pending].
  by rewrite lookup_insert_eq, insert_insert_eq, app_nil_r.
Qed.

Lemma scrape_prothom_alo_spec w s :
  scrape_prothom_alo w s =
  let f := csv_filename_of (today w) in
  let new := new_articles_at w s in
  (Returned (Z.of_nat (length (succeeded w new))),
   mkState (append_history (history_file s) (succeeded w new))
           (write_rows f (open_csv f (csv_files s)) (omap (item_row w) new))
           (trace s ++ cycle_events w s) []).
Proof.
  unfold scrape_prothom_alo.
  unfold bind at 1. rewrite get_current_articles_seen_at.
  unfold bind at 1, path_exists, with_open_append, close_file.
  cbv zeta. set (f := csv_filename_of (today w)).
  set (s0 := snd (open_append f s)).
  assert (Hc0 := closed_csv_open_append f s). fold s0 in Hc0.
  unfold cycle_events, new_articles_at, open_csv, header_events. fold f.
  unfold bind.
  destruct (csv_files s !! f) as [rows|] eqn:Hf.
  - rewrite bool_decide_true by eauto. unfold ret at 1.
    destruct (discover_and_process_spec w f (seen_at s) s0) as [Hfst Hsnd].
    destruct (try_except _ _ s0) as [res s1]. cbn [fst snd] in *.
    subst res. fold (closed_csv f s1). fold (flushed f s1).
    rewrite Hsnd, Hc0. cbn [default]. unfold id.
    by rewrite insert_id by done.
  - rewrite bool_decide_false by (intros [? ?]; done).
    set (s0' := snd (writerow (spilled w) f header s0)).
    assert (Hc1 := closed_csv_writerow (spilled w) f header s0).
    fold s0' in Hc1. rewrite Hc0, lookup_insert_eq, insert_insert_eq in Hc1.
    change (writerow (spilled w) f header s0) with (Returned tt, s0').
    destruct (discover_and_process_spec w f (seen_at s) s0') as [Hfst Hsnd].
    destruct (try_except _ _ s0') as [res s1]. cbn [fst snd] in *.
    subst res. fold (closed_csv f s1). fold (flushed f s1).
    rewrite Hsnd, Hc1. cbn. by rewrite <- app_assoc.
Qed.

Lemma new_articles_startswith_http w s url :
  url ∈ new_articles_at w s → startswith url (py "http") = true.
Proof.
  unfold new_articles_at. intros [H _]%elem_of_new_articles_of.
  unfold discovered in H. destruct (fetched (get_home w)); [|by inversion H].
  by eapply article_links_startswith_http.
Qed.

Lemma main_loop_spec ws total cycles s :
  fst (main_loop ws total cycles s) =
  Returned ((total + sum_Z (cycle_returns ws s))%Z,
            (cycles + Z.of_nat (length ws))%Z).
Proof.
  revert total cycles s. induction ws as [|w ws IH]; intros total cycles s.
  - cbn. by rewrite !Z.add_0_r.
  - cbn [main_loop cycle_returns]. unfold bind.
    rewrite scrape_prothom_alo_spec. cbv beta iota zeta. rewrite IH.
    unfold sum_Z. cbn [fold_right length]. do 2 f_equal; lia.
Qed.

(** ** Traces *)

Lemma events_of_scrape w s :
  events_of (scrape_prothom_alo w) s = cycle_events w s.
Proof.
  unfold events_of. rewrite scrape_prothom_alo_spec. cbn [snd trace].
  by rewrite drop_app_length.
Qed.

Lemma gets_item_events w f urls :
  gets (flat_map (item_events w f) urls) = urls.
Proof.
  induction urls as [|url urls IH]; [done|].
  cbn [flat_map]. unfold gets in *. rewrite omap_app, IH.
  unfold item_events. by destruct (item_row w url).
Qed.

Lemma gets_cycle_events w s :
  gets (cycle_events w s) = base_url :: new_articles_at w s.
Proof.
  unfold cycle_events, gets. rewrite omap_app. cbn [omap list_omap].
  fold (gets (flat_map (item_events w (csv_filename_of (today w)))
                       (new_articles_at w s))).
  rewrite gets_item_events.
  unfold header_events. by destruct (_ !! _).
Qed.

Lemma appended_item_events w f urls :
  appended (flat_map (item_events w f) urls) = succeeded w urls.
Proof.
  induction urls as [|url urls IH]; [done|].
  cbn [flat_map]. unfold appended in *. rewrite omap_app, IH, succeeded_cons.
  unfold item_events. by destruct (item_row w url).
Qed.

Lemma appended_cycle_events w s :
  appended (cycle_events w s) = succeeded w (new_articles_at w s).
Proof.
  unfold cycle_events, appended. rewrite omap_app. cbn [omap list_omap].
  fold (appended (flat_map (item_events w (csv_filename_of (today w)))
                           (new_articles_at w s))).
  rewrite appended_item_events.
  unfold header_events. by destruct (_ !! _).
Qed.

Lemma written_item_events w f urls :
  written (flat_map (item_events w f) urls) = (f ,.) <$> omap (item_row w) urls.
Proof.
  induction urls as [|url urls IH]; [done|].
  cbn [flat_map omap list_omap]. unfold written in *. rewrite omap_app, IH.
  unfold item_events. by destruct (item_row w url).
Qed.

Lemma written_cycle_events w s :
  let f := csv_filename_of (today w) in
  written (cycle_events w s) =
  (f ,.) <$> (header_rows f (csv_files s) ++
              omap (item_row w) (new_articles_at w s)).
Proof.
  cbv zeta. unfold cycle_events, written. rewrite omap_app. cbn [omap list_omap].
  fold (written (flat_map (item_events w (csv_filename_of (today w)))
                          (new_articles_at w s))).
  rewrite written_item_events, fmap_app. f_equal.
  unfold header_events, header_rows. by destruct (_ !! _).
Qed.

Lemma elem_of_appended evs url : url ∈ appended evs ↔ EAppendHistory url ∈ evs.
Proof.
  unfold appended. rewrite list_elem_of_omap. split.
  - intros (e & He & Hu). destruct e; try done. by injection Hu as ->.
  - intros He. by exists (EAppendHistory url).
Qed.

Lemma elem_of_written evs f r : (f, r) ∈ written evs ↔ EWriteRow f r ∈ evs.
Proof.
  unfold written. rewrite list_elem_of_omap. split.
  - intros (e & He & Hu). destruct e; try done. by injection Hu as -> ->.
  - intros He. by exists (EWriteRow f r).
Qed.

Lemma elem_of_item_events w f url e :
  e ∈ item_events w f url ↔
  e = EGet url ∨
  ∃ r, item_row w url = Some r ∧ (e = EWriteRow f r ∨ e = EAppendHistory url).
Proof.
  unfold item_events. destruct (item_row w url) as [r|].
  - rewrite !elem_of_cons, elem_of_nil. split.
    + intros [?|[?|[?|[]]]]; eauto.
    + intros [?|(r' & [= <-] & [?|?])]; eauto.
  - rewrite list_elem_of_singleton. split; [eauto|].
    by intros [?|(? & ? & _)].
Qed.

Lemma elem_of_cycle_events w s e :
  e ∈ cycle_events w s ↔
  e ∈ header_events (csv_filename_of (today w)) (csv_files s) ∨
  e = EGet base_url ∨
  ∃ url, url ∈ new_articles_at w s ∧
         e ∈ item_events w (csv_filename_of (today w)) url.
Proof.
  unfold cycle_events. rewrite elem_of_app, elem_of_cons.
  rewrite (list_elem_of_In (flat_map _ _) e), in_flat_map.
  setoid_rewrite <- list_elem_of_In. done.
Qed.

Lemma flat_map_item_events_split w f urls url :
  url ∈ urls →
  ∃ pre post,
    flat_map (item_events w f) urls = pre ++ item_events w f url ++ post.
Proof.
  intros (l1 & l2 & ->)%list_elem_of_split.
  exists (flat_map (item_events w f) l1), (flat_map (item_events w f) l2).
  by rewrite flat_map_app.
Qed.

Lemma cycle_events_split w s url :
  url ∈ new_articles_at w s →
  ∃ pre post,
    cycle_events w s =
    pre ++ item_events w (csv_filename_of (today w)) url ++ post.
Proof.
  intros (pre & post & H)%(flat_map_item_events_split w (csv_filename_of (today w))).
  unfold cycle_events. rewrite H.
  exists (header_events (csv_filename_of (today w)) (csv_files s)
          ++ EGet base_url :: pre), post.
  by rewrite <- app_assoc.
Qed.

Lemma item_events_lookup pre post w f url r :
  item_row w url = Some r →
  let evs := pre ++ item_events w f url ++ post in
  evs !! S (length pre) = Some (EWriteRow f r) ∧
  evs !! S (S (length pre)) = Some (EAppendHistory url).
Proof.
  intros Hr. cbv zeta. unfold item_events. rewrite Hr. split.
  - rewrite lookup_app_r by lia.
    by replace (S (length pre) - length pre)%nat with 1%nat by lia.
  - rewrite lookup_app_r by lia.
    by replace (S (S (length pre)) - length pre)%nat with 2%nat by lia.
Qed.

Lemma row_then_append_app w f evs1 evs2 :
  row_then_append w f evs1 → row_then_append w f evs2 →
  row_then_append w f (evs1 ++ evs2).
Proof.
  intros H1 H2 i url Hi.
  destruct (decide (i < length evs1)%nat) as [Hlt|Hge].
  - rewrite lookup_app_l in Hi by done.
    destruct (H1 _ _ Hi) as (j & r & -> & Hr & Hj).
    exists j, r. split_and!; [done..|]. rewrite lookup_app_l; [done|lia].
  - rewrite lookup_app_r in Hi by lia.
    destruct (H2 _ _ Hi) as (j & r & Hij & Hr & Hj).
    exists (length evs1 + j)%nat, r. split_and!; [lia|done|].
    rewrite lookup_app_r by lia. rewrite <- Hj. f_equal. lia.
Qed.

Lemma row_then_append_item w f url : row_then_append w f (item_events w f url).
Proof.
  intros i u. unfold item_events.
  destruct (item_row w url) as [r|] eqn:Hr.
  - destruct i as [|[|[|i]]]; cbn; try done. intros [= <-].
    by exists 1%nat, r.
  - destruct i as [|i]; cbn; done.
Qed.

Lemma row_then_append_items w f urls :
  row_then_append w f (flat_map (item_events w f) urls).
Proof.
  induction urls as [|url urls IH]; [by intros i u|].
  cbn [flat_map]. apply row_then_append_app; [apply row_then_append_item|done].
Qed.

Lemma row_then_append_cycle w s :
  row_then_append w (csv_filename_of (today w)) (cycle_events w s).
Proof.
  unfold cycle_events. apply row_then_append_app.
  - unfold header_events. destruct (_ !! _); intros [|i] u; done.
  - change (EGet base_url :: ?l) with ([EGet base_url] ++ l).
    apply row_then_append_app; [|apply row_then_append_items].
    intros [|i] u; done.
Qed.

(** ** The store after a cycle *)

(** What the two files hold after a cycle, from what they held before and
    the events of the cycle. *)
Lemma history_after_cycle w s :
  history_file (snd (scrape_prothom_alo w s)) =
  append_history (history_file s)
                 (appended (events_of (scrape_prothom_alo w) s)).
Proof.
  rewrite events_of_scrape, appended_cycle_events.
  by rewrite scrape_prothom_alo_spec.
Qed.

Lemma csv_after_cycle w s :
  let f := csv_filename_of (today w) in
  csv_files (snd (scrape_prothom_alo w s)) !! f =
  Some (default [] (csv_files s !! f) ++
        header_rows f (csv_files s) ++
        omap (item_row w) (new_articles_at w s)).
Proof.
  cbv zeta. rewrite scrape_prothom_alo_spec. cbn [snd csv_files].
  rewrite write_rows_lookup, open_csv_lookup. unfold header_rows.
  destruct (omap _ _) as [|r rows];
    destruct (csv_files s !! _) as [old|]; cbn [default app];
    by rewrite ?app_nil_r.
Qed.

Lemma csv_after_cycle_ne w s g :
  csv_filename_of (today w) ≠ g →
  csv_files (snd (scrape_prothom_alo w s)) !! g = csv_files s !! g.
Proof.
  intros Hne. rewrite scrape_prothom_alo_spec. cbn [snd csv_files].
  by rewrite write_rows_lookup_ne, open_csv_lookup_ne.
Qed.

Lemma return_of_cycle w s :
  fst (scrape_prothom_alo w s) =
  Returned (Z.of_nat (length (appended (events_of (scrape_prothom_alo w) s)))).
Proof.
  rewrite events_of_scrape, appended_cycle_events.
  by rewrite scrape_prothom_alo_spec.
Qed.

(** ** Rows of one cycle *)

Lemma header_article_url : article_url_of header = Some (py "article_url").
Proof. reflexivity. Qed.

Lemma startswith_http_not_header url :
  startswith url (py "http") = true → article_url_of header ≠ Some url.
Proof. rewrite header_article_url. intros H [= <-]. done. Qed.

(** The rows written for [url] among the rows of the items [urls]. *)
Lemma rows_for_url w urls url :
  NoDup urls →
  List.filter (fun r => bool_decide (article_url_of r = Some url))
              (omap (item_row w) urls) =
  match item_row w url with
  | Some r => if bool_decide (url ∈ urls) then [r] else []
  | None => []
  end.
Proof.
  induction 1 as [|v urls Hv Hnd IH].
  - cbn. by destruct (item_row w url).
  - cbn [omap list_omap]. destruct (decide (v = url)) as [->|Hne].
    + assert (Hnone : List.filter
                (fun r => bool_decide (article_url_of r = Some url))
                (omap (item_row w) urls) = []).
      { rewrite IH. destruct (item_row w url); [|done].
        by rewrite bool_decide_false. }
      rewrite (bool_decide_true (url ∈ url :: urls)) by left.
      destruct (item_row w url) as [r|] eqn:Hr; [|done].
      cbn [List.filter]. fold (omap (item_row w) urls). rewrite Hnone.
      by rewrite bool_decide_true by (by eapply article_url_of_item_row).
    + assert (Hsame : bool_decide (url ∈ v :: urls) = bool_decide (url ∈ urls)).
      { apply bool_decide_ext. rewrite elem_of_cons.
        split; [intros [?|?]; [congruence|done] | by right]. }
      rewrite Hsame, <- IH.
      destruct (item_row w v) as [r|] eqn:Hr; [|done].
      cbn [List.filter]. fold (omap (item_row w) urls).
      rewrite bool_decide_false; [done|].
      rewrite (article_url_of_item_row _ _ _ Hr). by intros [=].
Qed.

Lemma fmap_snd_pair {A B} (a : A) (l : list B) : snd <$> ((a ,.) <$> l) = l.
Proof. induction l as [|b l IH]; [done|]. cbn. by f_equal. Qed.

Lemma rows_of_cycle_for_url w s url r :
  url ∈ new_articles_at w s →
  item_row w url = Some r →
  List.filter (fun r' => bool_decide (article_url_of r' = Some url))
              (snd <$> written (cycle_events w s)) = [r].
Proof.
  intros Hnew Hr. rewrite written_cycle_events. cbv zeta.
  rewrite fmap_snd_pair.
  rewrite List.filter_app, rows_for_url by apply NoDup_new_articles_of.
  rewrite Hr, bool_decide_true by done.
  unfold header_rows. destruct (_ !! _); [done|]. cbn [List.filter].
  rewrite bool_decide_false; [done|].
  apply startswith_http_not_header. by eapply new_articles_startswith_http.
Qed.

Lemma article_urls_of_rows w urls :
  omap article_url_of (omap (item_row w) urls) = succeeded w urls.
Proof.
  induction urls as [|url urls IH]; [done|].
  rewrite succeeded_cons. cbn [omap list_omap].
  destruct (item_row w url) as [r|] eqn:Hr; [|done].
  cbn [omap list_omap]. fold (omap (item_row w) urls).
  fold (omap article_url_of (omap (item_row w) urls)).
  by rewrite (article_url_of_item_row _ _ _ Hr), IH.
Qed.

Lemma rows_of_writerow_calls w s :
  snd <$> written (cycle_events w s) =
  header_rows (csv_filename_of (today w)) (csv_files s) ++
  omap (item_row w) (new_articles_at w s).
Proof. rewrite written_cycle_events. cbv zeta. apply fmap_snd_pair. Qed.

Lemma file_object_after_item w f url r s :
  item_row w url = Some r →
  let s1 := snd (process_article w f url s) in
  default [] (csv_files s1 !! f) ++ pending s1 =
    (default [] (csv_files s !! f) ++ pending s) ++ [r] ∧
  history_file s1 = Some (default [] (history_file s) ++ url ++ [LF]).
Proof.
  intros Hr s1. destruct (process_article_spec w f url s) as [_ Hsnd].
  fold s1 in Hsnd. rewrite Hr in Hsnd. split.
  - apply (f_equal (fun st => csv_files st !! f)) in Hsnd.
    unfold flushed, closed_csv in Hsnd. cbn [csv_files] in Hsnd.
    rewrite !lookup_insert_eq in Hsnd. by injection Hsnd.
  - by apply (f_equal history_file) in Hsnd.
Qed.

Lemma file_object_after_failed_item w f url s :
  item_row w url = None →
  let s1 := snd (process_article w f url s) in
  default [] (csv_files s1 !! f) ++ pending s1 =
    default [] (csv_files s !! f) ++ pending s ∧
  history_file s1 = history_file s.
Proof.
  intros Hr s1. destruct (process_article_spec w f url s) as [_ Hsnd].
  fold s1 in Hsnd. rewrite Hr in Hsnd. split.
  - apply (f_equal (fun st => csv_files st !! f)) in Hsnd.
    unfold flushed, closed_csv in Hsnd. cbn [csv_files] in Hsnd.
    rewrite !lookup_insert_eq in Hsnd. by injection Hsnd.
  - by apply (f_equal history_file) in Hsnd.
Qed.

(** * The claims *)

(** C1. In every cycle the article requests are, after the homepage request,
    exactly the delta: a list without repetition whose members are the
    identifiers discovered on the homepage that are not in the set loaded from
    the history file when the cycle starts. *)
Theorem delta_is_discovered_minus_seen (w : World) (s : State) :
  get_current_articles s = (Returned (seen_at s), s) ∧
  ∃ new : list pystr,
    gets (events_of (scrape_prothom_alo w) s) = base_url :: new ∧
    NoDup new ∧
    ∀ url : pystr, url ∈ new ↔ url ∈ discovered w ∧ url ∉ seen_at s.
Proof.
  split; [apply get_current_articles_seen_at|].
  exists (new_articles_at w s). rewrite events_of_scrape, gets_cycle_events.
  split_and!; [done|apply NoDup_new_articles_of|].
  intros url. apply elem_of_new_articles_of.
Qed.

(** C2, as stated, fails: with the homepage down and no daily file yet, the
    cycle leaves a daily file behind. *)
Lemma homepage_down_creates_daily_file :
  fetched (get_home w_down) = Raised RequestException ∧
  csv_files (snd (scrape_prothom_alo w_down s_empty)) ≠ csv_files s_empty.
Proof.
  split; [reflexivity|]. intros H.
  apply (f_equal (fun m => m !! csv_filename_of (py "20240101"))) in H.
  vm_compute in H. discriminate H.
Qed.

(** C2, amended. When the homepage fetch fails the cycle returns 0 and raises
    nothing, the history file is unchanged, and so is every CSV file but the
    one of the day, which is unchanged when it existed and otherwise is
    created holding the header row alone. *)
Theorem homepage_failure_returns_zero (w : World) (s : State) (e : exn) :
  fetched (get_home w) = Raised e →
  let f := csv_filename_of (today w) in
  ∃ s' : State,
    scrape_prothom_alo w s = (Returned 0%Z, s') ∧
    history_file s' = history_file s ∧
    (is_Some (csv_files s !! f) → csv_files s' = csv_files s) ∧
    (csv_files s !! f = None → csv_files s' = <[f := [header]]> (csv_files s)) ∧
    gets (events_of (scrape_prothom_alo w) s) = [base_url].
Proof.
  intros He f. eexists. rewrite events_of_scrape, gets_cycle_events.
  rewrite scrape_prothom_alo_spec. cbv zeta.
  assert (Hnew : new_articles_at w s = []).
  { unfold new_articles_at, discovered. by rewrite He. }
  rewrite Hnew. cbn. split_and!; try done.
  - intros [rows Hrows]. unfold open_csv. fold f. by rewrite Hrows.
  - intros Hnone. unfold open_csv. fold f. by rewrite Hnone.
Qed.

Lemma homepage_failure_returns_zero_witness :
  fetched (get_home w_down) = Raised RequestException ∧
  ∃ s' : State,
    scrape_prothom_alo w_down s_day = (Returned 0%Z, s') ∧
    history_file s' = history_file s_day ∧
    (is_Some (csv_files s_day !! csv_filename_of (today w_down)) →
     csv_files s' = csv_files s_day) ∧
    (csv_files s_day !! csv_filename_of (today w_down) = None →
     csv_files s' = <[csv_filename_of (today w_down) := [header]]> (csv_files s_day)) ∧
    gets (events_of (scrape_prothom_alo w_down) s_day) = [base_url].
Proof.
  split; [reflexivity|].
  apply (homepage_failure_returns_zero w_down s_day RequestException).
  reflexivity.
Defined.

(** C3. An item of the filtered list whose fetch or parse raises is skipped:
    the cycle still returns, the identifier is not appended to the history
    file, no row carrying it is written, it is not counted, and every item of
    the list is still requested, each one that does not fail getting its row
    and its history line. *)
Theorem failed_item_is_skipped (w : World) (s : State) (url : pystr) (e : exn) :
  url ∈ new_articles_at w s →
  fetched (get_article w url) = Raised e →
  let f := csv_filename_of (today w) in
  let evs := events_of (scrape_prothom_alo w) s in
  let s' := snd (scrape_prothom_alo w s) in
  fst (scrape_prothom_alo w s) = Returned (Z.of_nat (length (appended evs))) ∧
  (url ∉ appended evs) ∧
  history_file s' = append_history (history_file s) (appended evs) ∧
  (∀ g r, EWriteRow g r ∈ evs → article_url_of r ≠ Some url) ∧
  (∃ rows, csv_files s' !! f = Some (default [] (csv_files s !! f) ++ rows) ∧
           ∀ r, r ∈ rows → article_url_of r ≠ Some url) ∧
  (∀ v, v ∈ new_articles_at w s →
        EGet v ∈ evs ∧
        ∀ soup, fetched (get_article w v) = Returned soup →
                EWriteRow f (article_row w v soup) ∈ evs ∧
                EAppendHistory v ∈ evs).
Proof.
  intros Hnew Hfail f evs s'.
  assert (Hnone : item_row w url = None) by (apply item_row_None; eauto).
  assert (Hhttp := new_articles_startswith_http _ _ _ Hnew).
  assert (Hrow : ∀ v r, item_row w v = Some r → article_url_of r ≠ Some url).
  { intros v r Hr. rewrite (article_url_of_item_row _ _ _ Hr).
    intros [= ->]. congruence. }
  assert (Hhdr : ∀ r, r ∈ header_rows f (csv_files s) →
                      article_url_of r ≠ Some url).
  { intros r. unfold header_rows. destruct (_ !! _); [by inversion 1|].
    intros ->%list_elem_of_singleton. by apply startswith_http_not_header. }
  split_and!.
  - apply return_of_cycle.
  - subst evs. rewrite events_of_scrape, appended_cycle_events.
    rewrite elem_of_succeeded, Hnone. intros [? Hs]. by apply is_Some_None in Hs.
  - apply history_after_cycle.
  - intros g r. subst evs. rewrite events_of_scrape, <- elem_of_written.
    rewrite written_cycle_events.
    intros (r' & [= -> ->] & Hin)%list_elem_of_fmap.
    apply elem_of_app in Hin as [Hin|Hin]; [by apply Hhdr|].
    apply list_elem_of_omap in Hin as (v & _ & Hv). by eapply Hrow.
  - eexists. split; [apply csv_after_cycle|]. intros r Hin.
    apply elem_of_app in Hin as [Hin|Hin]; [by apply Hhdr|].
    apply list_elem_of_omap in Hin as (v & _ & Hv). by eapply Hrow.
  - intros v Hv. subst evs. rewrite events_of_scrape. split.
    + apply elem_of_cycle_events. right; right. exists v. split; [done|].
      apply elem_of_item_events. by left.
    + intros soup Hsoup.
      assert (Hr : item_row w v = Some (article_row w v soup))
        by (apply item_row_Some; eauto).
      split; apply elem_of_cycle_events; right; right; exists v;
        (split; [done|]); apply elem_of_item_events; right; eauto.
Qed.

Lemma failed_item_is_skipped_witness :
  url_a ∈ new_articles_at w_mixed s_empty ∧
  fetched (get_article w_mixed url_a) = Raised (HTTPError 404) ∧
  fst (scrape_prothom_alo w_mixed s_empty) = Returned 1%Z ∧
  (url_a ∉ appended (events_of (scrape_prothom_alo w_mixed) s_empty)) ∧
  url_b ∈ appended (events_of (scrape_prothom_alo w_mixed) s_empty).
Proof.
  assert (Hin : url_a ∈ new_articles_at w_mixed s_empty) by by_compute.
  assert (Hfail : fetched (get_article w_mixed url_a) = Raised (HTTPError 404))
    by reflexivity.
  destruct (failed_item_is_skipped w_mixed s_empty url_a (HTTPError 404)
              Hin Hfail) as (Hret & Hskip & _ & _ & _ & Hrest).
  split_and!; [done|done| |done|].
  - rewrite Hret. reflexivity.
  - apply elem_of_appended.
    refine (proj2 (proj2 (Hrest url_b _) page_bare _)); [by_compute|reflexivity].
Defined.

(** C4, as stated, fails.  The row is handed to the file object opened at
    line 59, which keeps it in its buffer until the [with] block is left at
    the end of the cycle, while [save_article_url] closes the history file
    at once: when line 165 has run for the only new article, the history
    file holds the identifier and the daily file is still empty, the header
    and the row waiting in the buffer.  The store is the one left by the
    statements of lines 59-64 and one run of the loop body, lines 102-171,
    from an empty [data] directory.  The close at the end of the cycle puts
    header and row in the file. *)
Lemma identifier_is_recorded_before_row_is_on_file :
  new_articles_at w_one s_empty = [url_a] ∧
  fetched (get_article w_one url_a) = Returned page_plain ∧
  history_file
    (snd ((open_append (csv_filename_of (today w_one)) ;;;
           writerow (spilled w_one) (csv_filename_of (today w_one)) header ;;;
           process_article w_one (csv_filename_of (today w_one)) url_a)
            s_empty))
    = Some (url_a ++ [LF]) ∧
  csv_files
    (snd ((open_append (csv_filename_of (today w_one)) ;;;
           writerow (spilled w_one) (csv_filename_of (today w_one)) header ;;;
           process_article w_one (csv_filename_of (today w_one)) url_a)
            s_empty))
    !! csv_filename_of (today w_one) = Some [] ∧
  pending
    (snd ((open_append (csv_filename_of (today w_one)) ;;;
           writerow (spilled w_one) (csv_filename_of (today w_one)) header ;;;
           process_article w_one (csv_filename_of (today w_one)) url_a)
            s_empty))
    = [header; article_row w_one url_a page_plain] ∧
  csv_files (snd (scrape_prothom_alo w_one s_empty))
    !! csv_filename_of (today w_one)
    = Some [header; article_row w_one url_a page_plain].
Proof. split_and!; vm_compute; reflexivity. Qed.

(** C4, amended.  For every item that is fetched and parsed the calls come
    in this order: [writerow] of its row first, the append of its identifier
    to the history file right after.  One run of the loop body, from any
    store, adds the row to what the file object of the daily file holds (in
    the file or in its buffer) and the identifier to the history file when
    the item is fetched and parsed, and leaves both as they were when it is
    not: no identifier is recorded for an item whose [writerow] did not
    happen.  When the cycle ends the file is closed, and the daily file has
    gained the rows of exactly the identifiers that the history file has
    gained, in the same order. *)
Theorem row_is_written_before_history (w : World) (s : State) :
  let f := csv_filename_of (today w) in
  let evs := events_of (scrape_prothom_alo w) s in
  let s' := snd (scrape_prothom_alo w s) in
  (∀ i url,
     evs !! i = Some (EAppendHistory url) →
     ∃ j soup,
       i = S j ∧ fetched (get_article w url) = Returned soup ∧
       evs !! j = Some (EWriteRow f (article_row w url soup)) ∧
       article_row w url soup ∈ default [] (csv_files s' !! f)) ∧
  (∀ url soup,
     url ∈ new_articles_at w s →
     fetched (get_article w url) = Returned soup →
     ∃ j,
       evs !! j = Some (EWriteRow f (article_row w url soup)) ∧
       evs !! S j = Some (EAppendHistory url)) ∧
  (∀ url s0,
     let s1 := snd (process_article w f url s0) in
     match fetched (get_article w url) with
     | Returned soup =>
         default [] (csv_files s1 !! f) ++ pending s1 =
           (default [] (csv_files s0 !! f) ++ pending s0)
           ++ [article_row w url soup] ∧
         history_file s1 = Some (default [] (history_file s0) ++ url ++ [LF])
     | Raised _ =>
         default [] (csv_files s1 !! f) ++ pending s1 =
           default [] (csv_files s0 !! f) ++ pending s0 ∧
         history_file s1 = history_file s0
     end) ∧
  (∃ rows,
     csv_files s' !! f =
       Some (default [] (csv_files s !! f) ++ header_rows f (csv_files s)
             ++ rows) ∧
     history_file s' =
       append_history (history_file s) (omap article_url_of rows) ∧
     omap article_url_of rows = appended evs) ∧
  pending s' = [].
Proof.
  intros f evs s'. subst evs. rewrite events_of_scrape. split_and!.
  - intros i url Hi.
    assert (Hnew : url ∈ new_articles_at w s).
    { apply list_elem_of_lookup_2, elem_of_appended in Hi.
      rewrite appended_cycle_events in Hi.
      by apply elem_of_succeeded in Hi as [? _]. }
    destruct (row_then_append_cycle w s i url Hi) as (j & r & -> & Hr & Hj).
    pose proof Hr as (soup & Hsoup & ->)%item_row_Some.
    exists j, soup. split_and!; [done..|].
    subst s' f. rewrite csv_after_cycle.
    apply elem_of_app. right. apply elem_of_app. right.
    apply list_elem_of_omap. eauto.
  - intros url soup Hnew Hsoup.
    destruct (cycle_events_split w s url Hnew) as (pre & post & ->).
    exists (S (length pre)). apply item_events_lookup.
    apply item_row_Some. eauto.
  - intros url s0 s1.
    destruct (fetched (get_article w url)) as [soup|e] eqn:Hsoup.
    + apply file_object_after_item. apply item_row_Some. eauto.
    + apply file_object_after_failed_item. apply item_row_None. eauto.
  - exists (omap (item_row w) (new_articles_at w s)).
    rewrite article_urls_of_rows, appended_cycle_events. split_and!.
    + apply csv_after_cycle.
    + subst s'. by rewrite scrape_prothom_alo_spec.
    + done.
  - subst s'. by rewrite scrape_prothom_alo_spec.
Qed.

(** C5 does not hold of the code.  An [href] that ends in a space is written
    to the history file with the space and read back without it, so the
    cycle that follows a cycle in which every discovered article was
    processed, on the same homepage, finds the article new again and
    returns 1. *)
Theorem spaced_href_is_processed_again :
  discovered w_spaced = [url_spaced] ∧
  fst (scrape_prothom_alo w_spaced s_empty) = Returned 1%Z ∧
  appended (events_of (scrape_prothom_alo w_spaced) s_empty) = [url_spaced] ∧
  new_articles_at w_spaced (snd (scrape_prothom_alo w_spaced s_empty))
    = [url_spaced] ∧
  fst (scrape_prothom_alo w_spaced (snd (scrape_prothom_alo w_spaced s_empty)))
    = Returned 1%Z.
Proof. split_and!; vm_compute; reflexivity. Qed.

(** Where [line.strip()] gives every identifier back as it was written, the
    property holds: after a cycle in which every new article was processed,
    a cycle on the same homepage finds nothing new and returns 0. *)
Lemma second_cycle_finds_nothing (w w' : World) (s : State) (old : list pystr) :
  Forall line_safe old →
  default [] (history_file s) = history_text old →
  Forall line_safe (discovered w) →
  (∀ url, url ∈ new_articles_at w s → is_Some (item_row w url)) →
  discovered w' = discovered w →
  let s1 := snd (scrape_prothom_alo w s) in
  new_articles_at w' s1 = [] ∧
  fst (scrape_prothom_alo w' s1) = Returned 0%Z.
Proof.
  intros Hold Hhist Hdisc Hok Hsame s1.
  assert (Hsucc : succeeded w (new_articles_at w s) = new_articles_at w s).
  { unfold succeeded. apply forallb_filter_id, forallb_forall.
    intros url Hurl%list_elem_of_In. by apply bool_decide_eq_true, Hok. }
  assert (Hnew_safe : Forall line_safe (new_articles_at w s)).
  { apply Forall_forall. intros url [Hurl _]%elem_of_new_articles_of.
    rewrite Forall_forall in Hdisc. by apply Hdisc. }
  assert (Hseen1 : seen_at s1 = list_to_set (old ++ new_articles_at w s)).
  { apply (seen_at_append_history old _ s); [by apply Forall_app|done|].
    subst s1. rewrite scrape_prothom_alo_spec. cbn. by rewrite Hsucc. }
  assert (Hseen0 : seen_at s = list_to_set old)
    by by apply seen_at_history_text.
  assert (Hnone : new_articles_at w' s1 = []).
  { destruct (new_articles_at w' s1) as [|url l] eqn:Hl; [done|].
    assert (Hin : url ∈ new_articles_at w' s1) by (rewrite Hl; left).
    apply elem_of_new_articles_of in Hin as [Hd Hns].
    rewrite Hsame in Hd. rewrite Hseen1 in Hns.
    rewrite elem_of_list_to_set, elem_of_app in Hns.
    destruct (decide (url ∈ old)) as [?|Hno]; [naive_solver|].
    exfalso. apply Hns. right. apply elem_of_new_articles_of.
    split; [done|]. by rewrite Hseen0, elem_of_list_to_set. }
  split; [done|]. rewrite scrape_prothom_alo_spec. cbv zeta.
  by rewrite Hnone.
Qed.

(** C6, as stated, fails: with a primary selector that matches nothing and
    a fallback selector that matches one empty paragraph, neither finds any
    text, and the row that the cycle puts in the daily file has the empty
    string as its body, not the sentinel. *)
Lemma blank_fallback_row_is_not_sentinel :
  new_articles_at w_blank s_empty = [url_a] ∧
  fetched (get_article w_blank url_a) = Returned page_blank ∧
  strip (join_story (story_elements page_blank)) = [] ∧
  strip (join_fallback (fallback_elements page_blank)) = [] ∧
  csv_files (snd (scrape_prothom_alo w_blank s_empty))
    !! csv_filename_of (today w_blank)
    = Some [header; article_row w_blank url_a page_blank] ∧
  article_row w_blank url_a page_blank !! 1%nat = Some (Some []) ∧
  article_row w_blank url_a page_blank !! 1%nat ≠ Some (Some sentinel).
Proof.
  split_and!; try (vm_compute; reflexivity). vm_compute. discriminate.
Qed.

(** C6, amended.  An article of the filtered list that is fetched and
    parsed, and for which neither the primary nor the fallback selector
    yields any text, is processed without an error: by the end of the cycle
    its row is in the daily file, its identifier is appended to the history
    file, and it is counted.  The body of the row is the sentinel when the
    fallback selector matches no element and the empty string when it
    matches elements without text; the title is the placeholder when there
    is no [h1]. *)
Theorem degraded_article_is_recorded
    (w : World) (s : State) (url : pystr) (soup : article_page) :
  url ∈ new_articles_at w s →
  fetched (get_article w url) = Returned soup →
  strip (join_story (story_elements soup)) = [] →
  strip (join_fallback (fallback_elements soup)) = [] →
  let f := csv_filename_of (today w) in
  let s' := snd (scrape_prothom_alo w s) in
  let evs := events_of (scrape_prothom_alo w) s in
  let r := article_row w url soup in
  r !! 1%nat = Some (Some (match fallback_elements soup with
                           | [] => sentinel
                           | _ :: _ => []
                           end)) ∧
  r !! 3%nat = Some (Some url) ∧
  (h1_text soup = None → r !! 0%nat = Some (Some no_title)) ∧
  (∃ before after,
     csv_files s' !! f =
       Some (default [] (csv_files s !! f) ++ before ++ r :: after)) ∧
  url ∈ appended evs ∧
  history_file s' = append_history (history_file s) (appended evs) ∧
  fst (scrape_prothom_alo w s) = Returned (Z.of_nat (length (appended evs))).
Proof.
  intros Hnew Hsoup Hstory Hfall f s' evs r.
  assert (Hr : item_row w url = Some r) by (apply item_row_Some; eauto).
  split_and!.
  - subst r. unfold article_row, extract_content. rewrite Hstory.
    destruct (fallback_elements soup); [done|]. by rewrite Hfall.
  - done.
  - intros Hh1. subst r. unfold article_row, extract_title. by rewrite Hh1.
  - assert (Hin : r ∈ omap (item_row w) (new_articles_at w s)).
    { apply list_elem_of_omap. eauto. }
    apply list_elem_of_split in Hin as (l1 & l2 & Hl).
    exists (header_rows f (csv_files s) ++ l1), l2.
    subst s' f. rewrite csv_after_cycle, Hl. by rewrite <- !app_assoc.
  - subst evs. rewrite events_of_scrape, appended_cycle_events.
    apply elem_of_succeeded. rewrite Hr. eauto.
  - apply history_after_cycle.
  - apply return_of_cycle.
Qed.

Lemma degraded_article_is_recorded_witness :
  url_b ∈ new_articles_at w_mixed s_empty ∧
  fetched (get_article w_mixed url_b) = Returned page_bare ∧
  strip (join_story (story_elements page_bare)) = [] ∧
  strip (join_fallback (fallback_elements page_bare)) = [] ∧
  article_row w_mixed url_b page_bare !! 1%nat = Some (Some sentinel) ∧
  (∃ before after,
     csv_files (snd (scrape_prothom_alo w_mixed s_empty))
       !! csv_filename_of (today w_mixed) =
       Some (default [] (csv_files s_empty !! csv_filename_of (today w_mixed))
             ++ before ++ article_row w_mixed url_b page_bare :: after)) ∧
  url_b ∈ appended (events_of (scrape_prothom_alo w_mixed) s_empty).
Proof.
  assert (Hnew : url_b ∈ new_articles_at w_mixed s_empty) by by_compute.
  destruct (degraded_article_is_recorded w_mixed s_empty url_b page_bare
              Hnew eq_refl eq_refl eq_refl)
    as (Hbody & _ & _ & Hfile & Happ & _).
  split_and!; [done|reflexivity..|done|done|done].
Defined.

(** The fallback joins whatever paragraphs it matches: when they are all
    blank the body is the empty string, not the sentinel. *)
Example blank_fallback_gives_empty_body :
  extract_content (mkArticle None None None [] [py ""]) = py "".
Proof. reflexivity. Qed.

(** C7 does not hold of the code.  [save_article_url] writes the identifier
    as it is and [get_current_articles] strips every line, so an identifier
    recorded with a trailing space is not in the set that the load
    returns. *)
Theorem load_strips_recorded_identifier :
  history_file (snd (record_all [url_spaced] s_empty))
    = Some (url_spaced ++ [LF]) ∧
  fst (get_current_articles (snd (record_all [url_spaced] s_empty)))
    ≠ Returned (list_to_set [url_spaced]).
Proof.
  split; [reflexivity|]. intros H.
  assert (Hin : ∀ X : gset pystr,
            fst (get_current_articles (snd (record_all [url_spaced] s_empty)))
              = Returned X → bool_decide (url_spaced ∈ X) = false).
  { intros X HX. vm_compute in HX. injection HX as <-. by vm_compute. }
  specialize (Hin _ H). rewrite bool_decide_eq_false in Hin.
  apply Hin. apply elem_of_list_to_set. by left.
Qed.

(** What the load does return: the whitespace-stripped lines of the history
    file, as a set, and the empty set when there is no file; it changes
    nothing and does not raise.  After identifiers are recorded it returns
    exactly the recorded ones whenever none of them has leading or trailing
    whitespace or a line break in it. *)
Lemma load_returns_recorded_identifiers
    (old urls : list pystr) (s : State) :
  Forall line_safe (old ++ urls) →
  default [] (history_file s) = history_text old →
  let s' := snd (record_all urls s) in
  get_current_articles s' = (Returned (list_to_set (old ++ urls)), s') ∧
  (∀ (s0 : State) (t : pystr),
     history_file s0 = Some t →
     get_current_articles s0 =
     (Returned (list_to_set (strip <$> file_lines (universal_newlines t))), s0)) ∧
  (∀ s0 : State,
     history_file s0 = None → get_current_articles s0 = (Returned ∅, s0)).
Proof.
  intros Hsafe Hold s'. split_and!.
  - rewrite get_current_articles_seen_at. f_equal. f_equal.
    apply (seen_at_append_history old urls s); [done..|].
    subst s'. by rewrite record_all_spec.
  - intros s0 t Ht. unfold get_current_articles. by rewrite Ht.
  - intros s0 Ht. unfold get_current_articles. by rewrite Ht.
Qed.

(** C8. In every cycle the daily file gets the header row exactly when it
    did not exist before; what it held is kept and the rows of the cycle come
    after it; the header is written at most once, and no other CSV file is
    touched. *)
Theorem daily_file_header_and_append (w : World) (s : State) :
  let f := csv_filename_of (today w) in
  let s' := snd (scrape_prothom_alo w s) in
  let evs := events_of (scrape_prothom_alo w) s in
  ∃ rows : list row,
    csv_files s' !! f =
      Some (match csv_files s !! f with
            | Some old => old ++ rows
            | None => header :: rows
            end) ∧
    written evs =
      (f ,.) <$> (match csv_files s !! f with
                  | Some _ => rows
                  | None => header :: rows
                  end) ∧
    (header ∉ rows) ∧
    rows = omap (item_row w) (new_articles_at w s) ∧
    (∀ g, g ≠ f → csv_files s' !! g = csv_files s !! g).
Proof.
  intros f s' evs. exists (omap (item_row w) (new_articles_at w s)).
  subst evs s' f.
  rewrite events_of_scrape, written_cycle_events, csv_after_cycle.
  unfold header_rows. split_and!.
  - by destruct (csv_files s !! _).
  - by destruct (csv_files s !! _).
  - intros (url & Hnew & Hr)%list_elem_of_omap.
    apply article_url_of_item_row in Hr.
    apply new_articles_startswith_http in Hnew.
    by apply startswith_http_not_header in Hnew.
  - done.
  - intros g Hg. by apply csv_after_cycle_ne.
Qed.

(** C9. An [href] of the homepage becomes a candidate exactly when it
    contains [/category/] for one of the eight category names and contains
    neither [/video/] nor [/gallery/]; the candidate is the [href] itself when
    that starts with [http], and the base URL followed by the [href]
    otherwise. *)
Theorem candidate_identifiers (soup : home_page) (url : pystr) :
  length categories = 8%nat ∧
  (url ∈ article_links soup ↔
   ∃ href : pystr,
     Some href ∈ soup ∧
     (∃ category a b, category ∈ categories ∧
                      href = a ++ (py "/" ++ category ++ py "/") ++ b) ∧
     (¬ ∃ a b, href = a ++ py "/video/" ++ b) ∧
     (¬ ∃ a b, href = a ++ py "/gallery/" ++ b) ∧
     url = if decide (py "http" `prefix_of` href) then href
           else py "https://www.prothomalo.com" ++ href).
Proof.
  split; [reflexivity|]. rewrite elem_of_article_links.
  assert (Hfull : ∀ href, full_url href =
      if decide (py "http" `prefix_of` href) then href
      else py "https://www.prothomalo.com" ++ href).
  { intros href. unfold full_url.
    destruct (startswith href (py "http")) eqn:H.
    - apply startswith_prefix in H. by rewrite decide_True.
    - rewrite decide_False; [done|]. rewrite <- startswith_prefix. congruence. }
  split.
  - intros (category & href & Hc & Hsel & Hkeep & ->).
    apply elem_of_select_category in Hsel as [Hin Hsub].
    apply keep_href_spec in Hkeep as (_ & Hv & Hg).
    exists href. split_and!; [done| | | |apply Hfull].
    + apply str_in_spec in Hsub as (a & b & ->). by exists category, a, b.
    + rewrite <- str_in_spec. congruence.
    + rewrite <- str_in_spec. congruence.
  - intros (href & Hin & (category & a & b & Hc & Hsub) & Hv & Hg & ->).
    assert (Hs : str_in (py "/" ++ category ++ py "/") href = true).
    { apply str_in_spec. by exists a, b. }
    exists category, href. split_and!; [done| | |by rewrite Hfull].
    + by apply elem_of_select_category.
    + apply keep_href_spec. split_and!.
      * by eapply str_in_nonempty; [|exact Hs].
      * rewrite <- str_in_spec in Hv. by destruct (str_in _ href).
      * rewrite <- str_in_spec in Hg. by destruct (str_in _ href).
Qed.

(** C10. A cycle returns the number of identifiers it appended to the
    history file.  Each of these appends comes right after the [writerow]
    of a row carrying that identifier, which is the only such row of the
    cycle; one run of the loop body hands that row to the file object and
    puts the identifier in the history file; and when the cycle is over the
    daily file has gained exactly the rows of the [writerow] calls, in
    order.  The total kept by the outer loop is the sum of what the cycles
    returned. *)
Theorem count_equals_history_appends (w : World) (s : State) (ws : list World) :
  let f := csv_filename_of (today w) in
  let evs := events_of (scrape_prothom_alo w) s in
  let s' := snd (scrape_prothom_alo w s) in
  scrape_prothom_alo w s = (Returned (Z.of_nat (length (appended evs))), s') ∧
  history_file s' = append_history (history_file s) (appended evs) ∧
  NoDup (appended evs) ∧
  csv_files s' !! f =
    Some (default [] (csv_files s !! f) ++ (snd <$> written evs)) ∧
  Forall (fun fr => fst fr = f) (written evs) ∧
  (∀ i url,
     evs !! i = Some (EAppendHistory url) →
     ∃ j r,
       i = S j ∧ evs !! j = Some (EWriteRow f r) ∧
       article_url_of r = Some url ∧
       List.filter (fun r' => bool_decide (article_url_of r' = Some url))
                   (snd <$> written evs) = [r] ∧
       ∀ s0, let s1 := snd (process_article w f url s0) in
             default [] (csv_files s1 !! f) ++ pending s1 =
               (default [] (csv_files s0 !! f) ++ pending s0) ++ [r] ∧
             history_file s1 =
               Some (default [] (history_file s0) ++ url ++ [LF])) ∧
  fst (main ws s) =
    Returned (sum_Z (cycle_returns ws s), Z.of_nat (length ws)).
Proof.
  intros f evs s'. split_and!.
  - rewrite (surjective_pairing (scrape_prothom_alo w s)).
    by rewrite return_of_cycle.
  - apply history_after_cycle.
  - subst evs. rewrite events_of_scrape, appended_cycle_events.
    apply NoDup_succeeded, NoDup_new_articles_of.
  - subst evs s' f. rewrite events_of_scrape, rows_of_writerow_calls.
    apply csv_after_cycle.
  - subst evs. rewrite events_of_scrape, written_cycle_events. cbv zeta.
    apply Forall_fmap, Forall_forall. by intros r _.
  - intros i url Hi. subst evs. rewrite events_of_scrape in *.
    assert (Hnew : url ∈ new_articles_at w s).
    { apply list_elem_of_lookup_2, elem_of_appended in Hi.
      rewrite appended_cycle_events in Hi.
      by apply elem_of_succeeded in Hi as [? _]. }
    destruct (row_then_append_cycle w s i url Hi) as (j & r & -> & Hr & Hj).
    exists j, r. split_and!; [done..| | |].
    + by eapply article_url_of_item_row.
    + by apply rows_of_cycle_for_url.
    + intros s0. by apply file_object_after_item.
  - unfold main. by rewrite main_loop_spec.
Qed.

(** * Further properties *)

(** ** [strip] *)

Lemma lstrip_split s : ∃ k, s = k ++ lstrip s ∧ blank k.
Proof.
  induction s as [|c s (k & Hk & Hb)];
    [exists []; split; [done|constructor]|]. cbn [lstrip].
  destruct (isspace c) eqn:Hc.
  - exists (c :: k). split; [by rewrite Hk at 1|]. by constructor.
  - exists []. split; [done|constructor].
Qed.

Lemma lstrip_head s c : head (lstrip s) = Some c → isspace c = false.
Proof.
  induction s as [|d s IH]; [done|]. cbn [lstrip].
  destruct (isspace d) eqn:Hd; [done|]. by intros [= <-].
Qed.

Lemma lstrip_id s : (∀ c, head s = Some c → isspace c = false) → lstrip s = s.
Proof. destruct s as [|c s]; [done|]. intros H. cbn. by rewrite (H c). Qed.

Lemma lstrip_blank s : blank s → lstrip s = [].
Proof. induction 1 as [|c s Hc _ IH]; [done|]. cbn. by rewrite Hc. Qed.

Lemma lstrip_nil_blank s : lstrip s = [] → blank s.
Proof.
  intros H. destruct (lstrip_split s) as (k & Hk & Hb).
  rewrite H, app_nil_r in Hk. by subst.
Qed.

Lemma head_rev (s : pystr) : head (rev s) = last s.
Proof.
  induction s as [|c s IH] using rev_ind; [done|].
  by rewrite rev_app_distr, last_snoc.
Qed.

Lemma last_rev (s : pystr) : last (rev s) = head s.
Proof. by rewrite <- head_rev, rev_involutive. Qed.

Lemma blank_rev s : blank (rev s) ↔ blank s.
Proof.
  unfold blank. rewrite !Forall_forall.
  by setoid_rewrite list_elem_of_In; setoid_rewrite <- in_rev.
Qed.

Lemma rstrip_split s : ∃ k, s = rstrip s ++ k ∧ blank k.
Proof.
  unfold rstrip. destruct (lstrip_split (rev s)) as (k & Hk & Hb).
  exists (rev k). split; [|by apply blank_rev].
  by rewrite <- rev_app_distr, <- Hk, rev_involutive.
Qed.

Lemma rstrip_last s c : last (rstrip s) = Some c → isspace c = false.
Proof. unfold rstrip. rewrite last_rev. apply lstrip_head. Qed.

Lemma rstrip_id s : (∀ c, last s = Some c → isspace c = false) → rstrip s = s.
Proof.
  intros H. unfold rstrip. rewrite lstrip_id, rev_involutive; [done|].
  intros c. rewrite head_rev. apply H.
Qed.

Lemma last_app_nonempty (k s : pystr) : s ≠ [] → last (k ++ s) = last s.
Proof.
  intros Hs. destruct s as [|c s] using rev_ind; [done|].
  by rewrite app_assoc, !last_snoc.
Qed.

Lemma lstrip_last s c : last (lstrip s) = Some c → last s = Some c.
Proof.
  intros H. destruct (lstrip_split s) as (k & Hk & _).
  rewrite Hk, last_app_nonempty; [done|]. intros Hnil. by rewrite Hnil in H.
Qed.

Lemma strip_trimmed s : trimmed (strip s).
Proof.
  unfold strip. split.
  - apply lstrip_head.
  - intros c Hc%lstrip_last. by eapply rstrip_last.
Qed.

Lemma strip_id s : trimmed s → strip s = s.
Proof. intros [Hh Hl]. unfold strip. by rewrite rstrip_id, lstrip_id. Qed.

Lemma strip_split s : ∃ k1 k2, s = k1 ++ strip s ++ k2 ∧ blank k1 ∧ blank k2.
Proof.
  destruct (rstrip_split s) as (k2 & H2 & Hb2).
  destruct (lstrip_split (rstrip s)) as (k1 & H1 & Hb1).
  exists k1, k2. split; [|done]. unfold strip.
  by rewrite app_assoc, <- H1.
Qed.

Lemma strip_nil_blank s : strip s = [] ↔ blank s.
Proof.
  split.
  - intros H. destruct (strip_split s) as (k1 & k2 & Hs & Hb1 & Hb2).
    rewrite H in Hs. rewrite Hs. by apply Forall_app.
  - intros H. unfold strip, rstrip.
    by rewrite (lstrip_blank (rev s)) by by apply blank_rev.
Qed.

Lemma nonspace_app s t : nonspace (s ++ t) = nonspace s ++ nonspace t.
Proof. apply List.filter_app. Qed.

Lemma nonspace_blank s : blank s → nonspace s = [].
Proof.
  induction 1 as [|c s Hc _ IH]; [done|]. unfold nonspace in *. cbn.
  by rewrite Hc.
Qed.

Lemma nonspace_strip s : nonspace (strip s) = nonspace s.
Proof.
  destruct (strip_split s) as (k1 & k2 & Hs & Hb1 & Hb2).
  rewrite Hs at 2. rewrite !nonspace_app.
  rewrite (nonspace_blank k1), (nonspace_blank k2) by done.
  by rewrite app_nil_r.
Qed.

(** ** [clean_text], lines 10-15 *)

Lemma sub_ws_spaced b text : spaced b (sub_ws b text).
Proof.
  revert b. induction text as [|c text IH]; intros b; [done|].
  cbn [sub_ws]. destruct (isspace c) eqn:Hc.
  - destruct b; [apply IH|]. cbn. split_and!; [done..|apply IH].
  - cbn. rewrite Hc. apply IH.
Qed.

Lemma spaced_weaken s : spaced true s → spaced false s.
Proof.
  destruct s as [|c s]; [done|]. cbn. destruct (isspace c); [|done].
  by intros (_ & ? & _).
Qed.

Lemma spaced_sub_ws_id b s : spaced b s → sub_ws b s = s.
Proof.
  revert b. induction s as [|c s IH]; intros b; [done|]. cbn.
  destruct (isspace c).
  - intros (-> & -> & Hs). by rewrite IH.
  - intros Hs. by rewrite IH.
Qed.

Lemma spaced_app_l b p q : spaced b (p ++ q) → spaced b p.
Proof.
  revert b. induction p as [|c p IH]; intros b; [done|]. cbn.
  destruct (isspace c).
  - intros (? & ? & Hs). split_and!; [done..|]. by eapply IH.
  - apply IH.
Qed.

Lemma spaced_app_r b p q : spaced b (p ++ q) → ∃ b', spaced b' q.
Proof.
  revert b. induction p as [|c p IH]; intros b; [by exists b|]. cbn.
  destruct (isspace c).
  - intros (_ & _ & Hs). by eapply IH.
  - apply IH.
Qed.

Lemma spaced_true_head s c :
  spaced true s → head s = Some c → isspace c = false.
Proof.
  destruct s as [|d s]; [done|]. cbn. intros Hs [= ->].
  destruct (isspace c); [|done]. by destruct Hs as (_ & ? & _).
Qed.

Lemma spaced_lstrip s : spaced false s → spaced false (lstrip s).
Proof.
  destruct s as [|c s]; [done|]. cbn. destruct (isspace c) eqn:Hc.
  - intros (_ & _ & Hs). rewrite lstrip_id by (intros d; by apply spaced_true_head).
    by apply spaced_weaken.
  - intros Hs. cbn. by rewrite Hc.
Qed.

Lemma spaced_strip s : spaced false s → spaced false (strip s).
Proof.
  intros Hs. unfold strip. apply spaced_lstrip.
  destruct (rstrip_split s) as (k & Hk & _). rewrite Hk in Hs.
  by eapply spaced_app_l.
Qed.

Lemma spaced_only_SP b s : spaced b s → Forall (fun c => isspace c = true → c = SP) s.
Proof.
  revert b. induction s as [|c s IH]; intros b; [constructor|]. cbn.
  destruct (isspace c) eqn:Hc.
  - intros (-> & _ & Hs). constructor; [done|]. by eapply IH.
  - intros Hs. constructor; [by rewrite Hc|]. by eapply IH.
Qed.

Lemma spaced_no_run b s a c d t :
  spaced b s → s = a ++ c :: d :: t → isspace c = true → isspace d = false.
Proof.
  intros Hs -> Hc. apply spaced_app_r in Hs as [b' Hs].
  change (if isspace c then c = SP ∧ b' = false ∧ spaced true (d :: t)
          else spaced false (d :: t)) in Hs.
  rewrite Hc in Hs. destruct Hs as (_ & _ & Hs).
  by eapply spaced_true_head.
Qed.

Lemma nonspace_sub_ws b text : nonspace (sub_ws b text) = nonspace text.
Proof.
  revert b. induction text as [|c text IH]; intros b; [done|].
  unfold nonspace in *. cbn. destruct (isspace c) eqn:Hc; cbn.
  - destruct b; [apply IH|]. cbn. apply IH.
  - by rewrite Hc, IH.
Qed.

Lemma nonspace_nil_blank s : nonspace s = [] → blank s.
Proof.
  induction s as [|c s IH]; [constructor|]. unfold nonspace in *. cbn.
  destruct (isspace c) eqn:Hc; cbn; intros H; [|discriminate H].
  constructor; [done | by apply IH].
Qed.

Lemma blank_trimmed_nil s : blank s → trimmed s → s = [].
Proof.
  destruct s as [|c s]; [done|]. intros Hb [Hh _].
  apply Forall_cons in Hb as [Hc _]. rewrite (Hh c) in Hc; done.
Qed.

Lemma clean_text_unfold text : clean_text text = strip (sub_ws false text).
Proof. by destruct text. Qed.

Lemma clean_text_spaced text : spaced false (clean_text text).
Proof. rewrite clean_text_unfold. apply spaced_strip, sub_ws_spaced. Qed.

Lemma clean_text_trimmed text : trimmed (clean_text text).
Proof. rewrite clean_text_unfold. apply strip_trimmed. Qed.

Lemma nonspace_clean_text text : nonspace (clean_text text) = nonspace text.
Proof. by rewrite clean_text_unfold, nonspace_strip, nonspace_sub_ws. Qed.

Lemma clean_text_nil_blank text : clean_text text = [] ↔ blank text.
Proof.
  split.
  - intros H. apply nonspace_nil_blank.
    by rewrite <- nonspace_clean_text, H.
  - intros H. apply blank_trimmed_nil; [|apply clean_text_trimmed].
    apply nonspace_nil_blank. rewrite nonspace_clean_text.
    by apply nonspace_blank.
Qed.

(** X1. What [clean_text] returns has no whitespace at either end, and the
    only whitespace in it is the single space, never two in a row. *)
Theorem clean_text_normal_form (text : pystr) :
  trimmed (clean_text text) ∧
  Forall (fun c => isspace c = true → c = SP) (clean_text text) ∧
  (∀ a c d t, clean_text text = a ++ c :: d :: t →
              isspace c = true → isspace d = false).
Proof.
  assert (Hs := clean_text_spaced text). split_and!.
  - apply clean_text_trimmed.
  - by eapply spaced_only_SP.
  - intros a c d t. by apply (spaced_no_run false).
Qed.

(** X2. [clean_text] is idempotent: cleaning a cleaned text changes
    nothing. *)
Theorem clean_text_idempotent (text : pystr) :
  clean_text (clean_text text) = clean_text text.
Proof.
  rewrite (clean_text_unfold (clean_text text)).
  rewrite spaced_sub_ws_id by apply clean_text_spaced.
  apply strip_id, clean_text_trimmed.
Qed.

(** X3. [clean_text] neither drops nor changes nor reorders a code point
    that is not whitespace; it returns the empty string exactly for a text
    that is all whitespace (the empty text included). *)
Theorem clean_text_keeps_nonspace (text : pystr) :
  nonspace (clean_text text) = nonspace text ∧
  (clean_text text = [] ↔ blank text).
Proof. split; [apply nonspace_clean_text | apply clean_text_nil_blank]. Qed.

(** ** The body text, lines 130-156 *)

Lemma fold_left_join {A} (f : A → pystr) (l : list A) (acc : pystr) :
  fold_left (fun acc x => acc ++ f x) l acc = acc ++ concat (f <$> l).
Proof.
  revert acc. induction l as [|x l IH]; intros acc; cbn.
  - by rewrite app_nil_r.
  - by rewrite IH, app_assoc.
Qed.

Lemma join_fallback_concat paragraphs :
  join_fallback paragraphs = concat ((fun p => p ++ [LF; LF]) <$> paragraphs).
Proof. unfold join_fallback. by rewrite fold_left_join. Qed.

Lemma join_story_acc story acc :
  fold_left
    (fun article_content element_text =>
       match element_text with
       | [] => article_content
       | _ :: _ => article_content ++ element_text ++ [LF; LF]
       end) story acc =
  acc ++ concat ((fun e => match e with [] => [] | _ :: _ => e ++ [LF; LF] end)
                   <$> story).
Proof.
  revert acc. induction story as [|e story IH]; intros acc; cbn.
  - by rewrite app_nil_r.
  - rewrite IH. destruct e; [done|]. by rewrite <- app_assoc.
Qed.

Lemma blank_concat (ls : list pystr) : blank (concat ls) ↔ Forall blank ls.
Proof.
  induction ls as [|l ls IH]; cbn.
  - split; constructor.
  - unfold blank at 1. rewrite Forall_app, Forall_cons. fold (blank l).
    fold (blank (concat ls)). by rewrite IH.
Qed.

Lemma blank_join_fallback paragraphs :
  blank (join_fallback paragraphs) ↔ Forall blank paragraphs.
Proof.
  rewrite join_fallback_concat, blank_concat, Forall_fmap.
  apply Forall_iff. intros p. cbn. unfold blank. rewrite Forall_app.
  split; [by intros [? _]|]. intros H. split; [done|]. by repeat constructor.
Qed.

Lemma blank_join_story story :
  blank (join_story story) ↔ Forall blank story.
Proof.
  unfold join_story. rewrite join_story_acc, app_nil_l, blank_concat, Forall_fmap.
  apply Forall_iff. intros [|c e]; [done|]. unfold blank, compose.
  cbv beta iota. rewrite (Forall_app _ (c :: e)).
  split; [by intros [? _]|]. intros H. split; [done|]. by repeat constructor.
Qed.

Lemma nonspace_concat (ls : list pystr) :
  nonspace (concat ls) = concat (nonspace <$> ls).
Proof.
  induction ls as [|l ls IH]; [done|]. cbn. by rewrite nonspace_app, IH.
Qed.

Lemma nonspace_join_story story :
  nonspace (join_story story) = nonspace (concat story).
Proof.
  unfold join_story. rewrite join_story_acc, app_nil_l, !nonspace_concat.
  f_equal. rewrite <- list_fmap_compose. apply list_fmap_ext.
  intros _ [|c e] _; [done|]. cbn. rewrite nonspace_app.
  by rewrite (nonspace_blank [LF; LF]), app_nil_r by by repeat constructor.
Qed.

Lemma trimmed_sentinel : trimmed sentinel.
Proof.
  split; intros c H; vm_compute in H; by injection H as <-.
Qed.

(** X4. The body written for an article never has whitespace at either end.
    It is the empty string exactly when every primary element is blank and
    the fallback selector matches paragraphs that are all blank; and when
    some primary element has text, the body holds the non-whitespace code
    points of the primary elements, all of them and in order. *)
Theorem body_text_shape (soup : article_page) :
  trimmed (extract_content soup) ∧
  (extract_content soup = [] ↔
   Forall blank (story_elements soup) ∧
   fallback_elements soup ≠ [] ∧
   Forall blank (fallback_elements soup)) ∧
  (¬ Forall blank (story_elements soup) →
   nonspace (extract_content soup) = nonspace (concat (story_elements soup))).
Proof.
  unfold extract_content.
  destruct (strip (join_story (story_elements soup))) as [|c body] eqn:Hstory.
  - assert (Hblank : Forall blank (story_elements soup))
      by by apply blank_join_story, strip_nil_blank.
    destruct (fallback_elements soup) as [|p ps] eqn:Hfall.
    + split_and!; [apply trimmed_sentinel| |done].
      split; [done|]. by intros (_ & ? & _).
    + split_and!; [apply strip_trimmed| |done].
      rewrite strip_nil_blank, blank_join_fallback.
      split; [intros H; by split_and! | by intros (_ & _ & ?)].
  - assert (Hnot : ¬ Forall blank (story_elements soup)).
    { rewrite <- blank_join_story, <- strip_nil_blank. by rewrite Hstory. }
    rewrite <- Hstory. split_and!.
    + apply strip_trimmed.
    + rewrite Hstory. split; [done|]. by intros (? & _).
    + intros _. by rewrite nonspace_strip, nonspace_join_story.
Qed.

(** ** Identifiers, lines 75-89 *)

Lemma str_in_app_l needle a hay :
  str_in needle hay = true → str_in needle (a ++ hay) = true.
Proof.
  rewrite !str_in_spec. intros (p & q & ->). exists (a ++ p), q.
  by rewrite <- app_assoc.
Qed.

Lemma str_in_base_url_video href :
  str_in (py "/video/") (base_url ++ href) = str_in (py "/video/") href.
Proof. reflexivity. Qed.

Lemma str_in_base_url_gallery href :
  str_in (py "/gallery/") (base_url ++ href) = str_in (py "/gallery/") href.
Proof. reflexivity. Qed.

(** X5. Every candidate identifier starts with [http], contains
    [/category/] for one of the category names, and contains neither
    [/video/] nor [/gallery/], also when the base URL was put in front of the
    [href]. *)
Theorem identifiers_avoid_video_and_gallery (soup : home_page) (url : pystr) :
  url ∈ article_links soup →
  py "http" `prefix_of` url ∧
  (∃ category a b, category ∈ categories ∧
                   url = a ++ (py "/" ++ category ++ py "/") ++ b) ∧
  (¬ ∃ a b, url = a ++ py "/video/" ++ b) ∧
  (¬ ∃ a b, url = a ++ py "/gallery/" ++ b).
Proof.
  intros Hin. split; [by eapply startswith_prefix, article_links_startswith_http|].
  apply elem_of_article_links in Hin
    as (category & href & Hc & Hsel & Hkeep & ->).
  apply elem_of_select_category in Hsel as [_ Hsub].
  apply keep_href_spec in Hkeep as (_ & Hv & Hg).
  rewrite <- !str_in_spec. unfold full_url.
  destruct (startswith href (py "http")).
  - split_and!; [|congruence..].
    apply str_in_spec in Hsub as (a & b & ->). by exists category, a, b.
  - rewrite str_in_base_url_video, str_in_base_url_gallery.
    split_and!; [|congruence..].
    apply (str_in_app_l _ base_url), str_in_spec in Hsub as (a & b & ->).
    by exists category, a, b.
Qed.

Lemma identifiers_avoid_video_and_gallery_witness :
  url_a ∈ article_links [Some (py "/sports/a"); Some (py "/video/sports/b")] ∧
  py "http" `prefix_of` url_a ∧
  (¬ ∃ a b, url_a = a ++ py "/video/" ++ b) ∧
  (¬ ∃ a b, url_a = a ++ py "/gallery/" ++ b).
Proof.
  assert (Hin : url_a ∈ article_links
                  [Some (py "/sports/a"); Some (py "/video/sports/b")])
    by by_compute.
  destruct (identifiers_avoid_video_and_gallery _ _ Hin) as (H1 & _ & H2 & H3).
  done.
Defined.

(** ** Rows and history lines of one cycle *)

Lemma length_rows w urls :
  length (omap (item_row w) urls) = length (succeeded w urls).
Proof.
  induction urls as [|url urls IH]; [done|].
  rewrite succeeded_cons. cbn [omap list_omap].
  destruct (item_row w url); cbn [length]; by rewrite <- IH.
Qed.

Lemma rows_have_six_fields w urls :
  Forall (fun r => length r = length header) (omap (item_row w) urls).
Proof.
  apply Forall_forall. intros r (url & _ & Hr)%list_elem_of_omap.
  by apply item_row_Some in Hr as (soup & _ & ->).
Qed.

(** X6. The article rows that a cycle adds to the daily file and the text
    that it adds to the history file go together: after the header (when
    written) come as many rows as identifiers were appended, in the same
    order, and the text added to the history file is the [article_url]
    column of these rows, each entry followed by a line feed; every one of
    the rows has as many fields as the header. *)
Theorem rows_match_history_lines (w : World) (s : State) :
  let f := csv_filename_of (today w) in
  let s' := snd (scrape_prothom_alo w s) in
  let evs := events_of (scrape_prothom_alo w) s in
  ∃ rows : list row,
    csv_files s' !! f =
      Some (default [] (csv_files s !! f) ++ header_rows f (csv_files s) ++ rows) ∧
    history_file s' = append_history (history_file s) (appended evs) ∧
    default [] (history_file s') =
      default [] (history_file s) ++ history_text (omap article_url_of rows) ∧
    omap article_url_of rows = appended evs ∧
    length rows = length (appended evs) ∧
    Forall (fun r => length r = length header) rows.
Proof.
  intros f s' evs. exists (omap (item_row w) (new_articles_at w s)).
  subst f s' evs. rewrite events_of_scrape, appended_cycle_events.
  split_and!.
  - apply csv_after_cycle.
  - by rewrite scrape_prothom_alo_spec.
  - rewrite article_urls_of_rows, scrape_prothom_alo_spec.
    cbn [snd history_file]. rewrite append_history_text.
    destruct (succeeded w (new_articles_at w s)); [by rewrite app_nil_r|done].
  - apply article_urls_of_rows.
  - apply length_rows.
  - apply rows_have_six_fields.
Qed.

(** ** The history file across cycles *)

Lemma history_text_nil urls : history_text urls = [] → urls = [].
Proof.
  destruct urls as [|url urls]; [done|]. unfold history_text. cbn.
  by destruct url.
Qed.

(** X7. A cycle only ever adds to the end of the history file: the text it
    held is a prefix of the text it holds afterwards, the file is never
    removed, and the cycle returns 0 exactly when it leaves the file as it
    was. *)
Theorem history_is_append_only (w : World) (s : State) :
  let s' := snd (scrape_prothom_alo w s) in
  default [] (history_file s) `prefix_of` default [] (history_file s') ∧
  (is_Some (history_file s) → is_Some (history_file s')) ∧
  (fst (scrape_prothom_alo w s) = Returned 0%Z ↔
   history_file s' = history_file s).
Proof.
  intros s'. subst s'. rewrite history_after_cycle, return_of_cycle.
  rewrite append_history_text.
  destruct (appended (events_of (scrape_prothom_alo w) s)) as [|url urls] eqn:Happ.
  - by split_and!.
  - split_and!.
    + by eexists.
    + by eauto.
    + split; [intros [= H]; cbn in H; lia|].
      destruct (history_file s) as [t|]; [|done]. intros [= H]. exfalso.
      rewrite <- (app_nil_r t) in H at 2. apply app_inv_head in H.
      by apply history_text_nil in H.
Qed.





Lemma scrape_returns w s :
  ∃ n, scrape_prothom_alo w s = (Returned n, snd (scrape_prothom_alo w s)).
Proof. rewrite scrape_prothom_alo_spec. by eexists. Qed.

Lemma main_loop_cons w ws total cycles s :
  ∃ n,
    fst (scrape_prothom_alo w s) = Returned n ∧
    main_loop (w :: ws) total cycles s =
    main_loop ws (total + n)%Z (cycles + 1)%Z (snd (scrape_prothom_alo w s)).
Proof.
  destruct (scrape_returns w s) as [n Hn]. exists n.
  cbn [main_loop]. unfold bind. rewrite Hn. by rewrite Hn.
Qed.






(** ** Recording and loading, lines 17-35 *)



(** ** The daily files across cycles *)

Lemma header_not_article_row w s :
  header ∉ omap (item_row w) (new_articles_at w s).
Proof.
  intros (url & Hnew & Hr)%list_elem_of_omap.
  apply article_url_of_item_row in Hr.
  apply new_articles_startswith_http in Hnew.
  by apply startswith_http_not_header in Hnew.
Qed.

Lemma cycle_keeps_header_once w s g :
  header_once (csv_files s !! g) →
  header_once (csv_files (snd (scrape_prothom_alo w s)) !! g).
Proof.
  intros Hg. destruct (decide (csv_filename_of (today w) = g)) as [<-|Hne].
  - rewrite csv_after_cycle. unfold header_rows.
    destruct (csv_files s !! _) as [old|]; cbn in *.
    + destruct Hg as (rest & -> & Hrest). eexists. split; [done|].
      rewrite not_elem_of_app. split; [done|apply header_not_article_row].
    + eexists. split; [done|apply header_not_article_row].
  - by rewrite csv_after_cycle_ne.
Qed.

Lemma main_loop_keeps_header_once ws total cycles s :
  (∀ g, header_once (csv_files s !! g)) →
  ∀ g, header_once (csv_files (snd (main_loop ws total cycles s)) !! g).
Proof.
  revert total cycles s. induction ws as [|w ws IH]; intros total cycles s Hs.
  - done.
  - destruct (main_loop_cons w ws total cycles s) as (n & _ & ->).
    apply IH. intros g. by apply cycle_keeps_header_once.
Qed.

(** X12. Every daily file keeps one header row, at its start.  If each
    daily file there is starts with the header row and holds it nowhere
    else, the same is true after any number of cycles, whatever their
    dates: a file created by a cycle starts with the header, and later
    cycles of the same day add article rows only. *)
Theorem daily_files_have_one_header (ws : list World) (s : State) :
  (∀ g, header_once (csv_files s !! g)) →
  ∀ g, header_once (csv_files (snd (main ws s)) !! g).
Proof. apply main_loop_keeps_header_once. Qed.

Lemma daily_files_have_one_header_witness :
  (∀ g, header_once (csv_files s_empty !! g)) ∧
  header_once (csv_files (snd (main [w_mixed; w_ok; w_down] s_empty))
               !! csv_filename_of (py "20240101")).
Proof.
  assert (H : ∀ g, header_once (csv_files s_empty !! g)).
  { intros g. cbn. by rewrite lookup_empty. }
  split; [done|].
  apply (daily_files_have_one_header [w_mixed; w_ok; w_down] s_empty H).
Defined.

(** ** Title and the other fields, lines 114-128 *)

Lemma no_title_trimmed : trimmed no_title.
Proof. split; intros c H; vm_compute in H; by injection H as <-. Qed.

(** X13. The title never has whitespace at either end.  The placeholder
    stands only for a missing [h1]: an [h1] that is there but blank gives the
    empty title, and the title is empty in no other case. *)
Theorem title_shape (soup : article_page) :
  trimmed (extract_title soup) ∧
  (h1_text soup = None → extract_title soup = no_title) ∧
  (extract_title soup = [] ↔ ∃ text, h1_text soup = Some text ∧ blank text).
Proof.
  unfold extract_title. destruct (h1_text soup) as [text|].
  - split_and!.
    + apply clean_text_trimmed.
    + done.
    + rewrite clean_text_nil_blank.
      split; [by exists text|by intros (? & [= <-] & ?)].
  - split_and!; [apply no_title_trimmed|done|].
    split; [done|by intros (? & ? & _)].
Qed.

Lemma article_row_fields w url soup :
  ∃ title body image published stamp,
    article_row w url soup =
      [Some title; Some body; Some image; Some url; published; Some stamp] ∧
    (published = None ↔ time_datetime soup = Some None).
Proof.
  unfold article_row, extract_image_url, extract_published_at.
  destruct (figure_img soup) as [[[[|c src]|] data_src]|];
    destruct (time_datetime soup) as [[datetime|]|];
    do 5 eexists; (split; [reflexivity|]); by split.
Qed.

(** X14. Of the six fields of an article row only [published_at] can be
    [None], and it is so exactly when the page has a [time] element without a
    [datetime] attribute; the image URL is always a string, the empty one
    when nothing better is found. *)
Theorem only_published_at_can_be_None
    (w : World) (url : pystr) (soup : article_page) (i : nat) :
  (∀ x, article_row w url soup !! i = Some x → i ≠ 4%nat → is_Some x) ∧
  (article_row w url soup !! 4%nat = Some None ↔
   time_datetime soup = Some None) ∧
  (figure_img soup = None → article_row w url soup !! 2%nat = Some (Some [])).
Proof.
  destruct (article_row_fields w url soup)
    as (title & body & image & published & stamp & Hrow & Hpub).
  split_and!.
  - rewrite Hrow. intros x Hx Hi.
    destruct i as [|[|[|[|[|[|i]]]]]]; cbn in Hx; try done;
      injection Hx as <-; eauto.
  - rewrite Hrow. cbn. rewrite <- Hpub. split; [by intros [= ->]|by intros ->].
  - intros Himg. unfold article_row, extract_image_url. by rewrite Himg.
Qed.
